(** * NBA data collection script: a shallow embedding of
    [scripts/data_colection.py] and the properties of its retry wrapper,
    roster filter, conference listings and run orchestration. *)

From Stdlib Require Import String Ascii ZArith List Bool Lia DecimalString.
Import ListNotations.
Open Scope string_scope.
Open Scope Z_scope.

(** ** Scalars and tables *)

(** A cell of a pandas frame.  Floats are only carried through by the script
    (never compared or computed with), so a float cell is represented by its
    printed form. *)
Inductive value := VStr (s : string) | VInt (n : Z) | VFloat (repr : string).

(** Python's [str(n)] on an integer. *)
Definition str_Z (z : Z) : string := NilZero.string_of_int (Z.to_int z).

(** Python's [str(v)] on a scalar, as used by the f-strings. *)
Definition str_value (v : value) : string :=
  match v with
  | VStr s => s
  | VInt n => str_Z n
  | VFloat r => r
  end.

(** The missing-value marker pandas fills in. *)
Definition NaN : value := VFloat "nan".

(** [cell == 'literal'] as pandas evaluates it elementwise on a column. *)
Definition value_eq_str (v : value) (lit : string) : bool :=
  match v with
  | VStr s => String.eqb s lit
  | _ => false
  end.

(** A frame: its column labels in order and its rows, each row holding one
    cell per column, in column order. *)
Record DataFrame := mkDF { df_columns : list string; df_rows : list (list value) }.

(** The frames the remote provider sends have distinct column labels and
    rectangular rows. *)
Definition wf_df (df : DataFrame) : Prop :=
  NoDup (df_columns df) /\
  Forall (fun r => length r = length (df_columns df)) (df_rows df).

(** ** Exceptions *)

(** The exception classes the script can meet: the two [requests] classes it
    catches, the library's subclasses of them, the built-in ones raised by
    pandas, list indexing, [time.sleep] and the script itself, and any other
    class (identified by name), unrelated to the caught ones. *)
Inductive exn_class :=
  ConnectionError | Timeout | ConnectTimeout | ReadTimeout | ProxyError | SSLError
| KeyError | IndexError | ValueError | Exception_ | OtherError (name : string).

Record exn := mkExn { exn_cls : exn_class; exn_msg : string }.

(** [issubclass(c, d)] for the classes above ([requests.exceptions] declares
    [ConnectTimeout(ConnectionError, Timeout)], [ReadTimeout(Timeout)],
    [ProxyError(ConnectionError)] and [SSLError(ConnectionError)]). *)
Definition subclass_of (c d : exn_class) : bool :=
  match d, c with
  | ConnectionError, (ConnectionError | ConnectTimeout | ProxyError | SSLError) => true
  | Timeout, (Timeout | ConnectTimeout | ReadTimeout) => true
  | ConnectTimeout, ConnectTimeout => true
  | ReadTimeout, ReadTimeout => true
  | ProxyError, ProxyError => true
  | SSLError, SSLError => true
  | KeyError, KeyError => true
  | IndexError, IndexError => true
  | ValueError, ValueError => true
  | Exception_, _ => true
  | OtherError n, OtherError m => String.eqb n m
  | _, _ => false
  end.

(** Whether [except (classes...)] catches [e]. *)
Definition catches (classes : list exn_class) (e : exn) : bool :=
  existsb (subclass_of (exn_cls e)) classes.

(** The transient class of the retry wrapper: [(ConnectionError, Timeout)]. *)
Definition transient_classes : list exn_class := [ConnectionError; Timeout].

Definition is_transient (e : exn) : bool := catches transient_classes e.

(** ** The remote endpoints and the observable effects *)

(** The callables handed to [retry_request]: the four [nba_api] endpoint
    classes; constructing one performs the HTTP request. *)
Inductive callable := TeamGameLog | CommonTeamRoster | PlayerGameLog | LeagueStandings.

(** Keyword arguments of a call. *)
Definition kwargs := list (string * value).

(** What a run does that can be observed from outside, in order. *)
Inductive event :=
| ECall (func : callable) (kw : kwargs)
| EPrint (line : string)
| EPrintColumns (label : string) (cols : list string)
| ESleep (seconds : Z)
| EMakedirs (path : string)
| EWriteCsv (path : string) (df : DataFrame).

Inductive result (A : Type) := Ok (a : A) | Raise (e : exn).
Arguments Ok {A} a.
Arguments Raise {A} e.

Definition range (n : Z) : list Z := map Z.of_nat (seq 0 (Z.to_nat n)).

(** ** Operations on frames *)

(** Position of the first column labelled [c]. *)
Fixpoint index_of (c : string) (cols : list string) : option nat :=
  match cols with
  | [] => None
  | c' :: cs => if String.eqb c c' then Some O else option_map S (index_of c cs)
  end.

(** [c in df.columns]. *)
Definition has_column (df : DataFrame) (c : string) : bool :=
  existsb (String.eqb c) (df_columns df).

(** The cell of row [r] of [df] under column [c]. *)
Definition cell (df : DataFrame) (r : list value) (c : string) : value :=
  match index_of c (df_columns df) with
  | Some i => nth i r NaN
  | None => NaN
  end.

(** [df[c]]: the column as a series; pandas raises [KeyError] on an unknown
    label (the message is abridged to the label). *)
Definition get_column (df : DataFrame) (c : string) : result (list value) :=
  if has_column df c then Ok (map (fun r => cell df r c) (df_rows df))
  else Raise (mkExn KeyError c).

(** [series == lit], elementwise. *)
Definition eq_mask (col : list value) (lit : string) : list bool :=
  map (fun v => value_eq_str v lit) col.

(** Whether a cell is one of the strings [names]. *)
Definition is_member (names : list string) (v : value) : bool :=
  match v with
  | VStr s => existsb (String.eqb s) names
  | _ => false
  end.

(** [series.isin(names)], elementwise. *)
Definition isin (col : list value) (names : list string) : list bool :=
  map (is_member names) col.

(** [df[mask]]: the rows whose mask entry is true, in order. *)
Definition select_rows (df : DataFrame) (mask : list bool) : DataFrame :=
  mkDF (df_columns df) (map snd (filter fst (combine mask (df_rows df)))).

(** [df[cols]] with a list of labels: every label must be a column, else
    pandas raises [KeyError] (the message is abridged to the missing labels). *)
Definition select_columns (df : DataFrame) (cols : list string) : result DataFrame :=
  match filter (fun c => negb (has_column df c)) cols with
  | [] => Ok (mkDF cols (map (fun r => map (cell df r) cols) (df_rows df)))
  | missing => Raise (mkExn KeyError (String.concat ", " missing))
  end.

Fixpoint set_nth (i : nat) (v : value) (r : list value) : list value :=
  match r, i with
  | [], _ => []
  | _ :: r', O => v :: r'
  | x :: r', S i' => x :: set_nth i' v r'
  end.

(** [df[c] = v] with a scalar: overwrites the column when it exists, appends
    it as the last column otherwise. *)
Definition assign_const (df : DataFrame) (c : string) (v : value) : DataFrame :=
  match index_of c (df_columns df) with
  | Some i => mkDF (df_columns df) (map (set_nth i v) (df_rows df))
  | None => mkDF (df_columns df ++ [c]) (map (fun r => (r ++ [v])%list) (df_rows df))
  end.

(** The rows of [df] laid out under the labels [cols], missing cells filled
    with NaN. *)
Definition reindex (cols : list string) (df : DataFrame) : list (list value) :=
  map (fun r => map (fun c => if has_column df c then cell df r c else NaN) cols)
      (df_rows df).

(** [pd.concat([a, b], ignore_index=True)]: the union of the columns in
    order of appearance, the rows of [a] then those of [b]. *)
Definition concat (a b : DataFrame) : DataFrame :=
  let cols := (df_columns a
               ++ filter (fun c => negb (has_column a c)) (df_columns b))%list in
  mkDF cols (reindex cols a ++ reindex cols b).

(** [df.rename(columns=mapping)]. *)
Definition rename (mapping : list (string * string)) (df : DataFrame) : DataFrame :=
  mkDF (map (fun c => match find (fun kv => String.eqb c (fst kv)) mapping with
                      | Some kv => snd kv
                      | None => c
                      end) (df_columns df))
       (df_rows df).

(** [df.empty]: some axis has length zero. *)
Definition df_empty (df : DataFrame) : bool :=
  match df_columns df, df_rows df with
  | _ :: _, _ :: _ => false
  | _, _ => true
  end.

(** ** Dictionaries, strings and paths *)

(** Structural equality of scalars; the keys met by the script are strings. *)
Definition value_eqb (a b : value) : bool :=
  match a, b with
  | VStr s, VStr t => String.eqb s t
  | VInt n, VInt m => Z.eqb n m
  | VFloat s, VFloat t => String.eqb s t
  | _, _ => false
  end.

(** A Python [dict]: its items in insertion order, keys distinct. *)
Definition dict := list (value * value).

(** [d[k] = v]: a known key keeps its place and takes the new value, a new
    key goes last. *)
Fixpoint dict_set (d : dict) (k v : value) : dict :=
  match d with
  | [] => [(k, v)]
  | (k', v') :: d' =>
      if value_eqb k k' then (k', v) :: d' else (k', v') :: dict_set d' k v
  end.

(** [dict(pairs)]. *)
Definition dict_of (pairs : list (value * value)) : dict :=
  fold_left (fun d kv => dict_set d (fst kv) (snd kv)) pairs [].

(** [d.get(k)]. *)
Fixpoint dict_get (d : dict) (k : value) : option value :=
  match d with
  | [] => None
  | (k', v') :: d' => if value_eqb k k' then Some v' else dict_get d' k
  end.

(** [s.replace(a, b)] for one-character [a] and [b]. *)
Fixpoint replace_char (a b : ascii) (s : string) : string :=
  match s with
  | EmptyString => EmptyString
  | String c s' => String (if Ascii.eqb c a then b else c) (replace_char a b s')
  end.

Fixpoint ends_with_slash (s : string) : bool :=
  match s with
  | EmptyString => false
  | String c EmptyString => Ascii.eqb c "/"
  | String _ s' => ends_with_slash s'
  end.

(** [os.path.join(a, b)] on POSIX. *)
Definition path_join (a b : string) : string :=
  match b with
  | String "/" _ => b
  | _ => match a with
         | EmptyString => b
         | _ => if ends_with_slash a then a ++ b else a ++ "/" ++ b
         end
  end.

(** The newline character of the banner lines. *)
Definition nl : string := String (ascii_of_nat 10) EmptyString.

Section Script.

(** The world outside the process (the provider, the network, the clock),
    the provider's response objects, what calling an endpoint does to the
    world, what [get_data_frames()] reads off a response, and what the
    passage of [time.sleep]'s seconds does to the world. *)
Context {World Response : Type}.
Variable invoke : callable -> kwargs -> World -> result Response * World.
Variable get_data_frames : Response -> list DataFrame.
Variable elapse : Z -> World -> World.

Record state := mkState { world : World; trace : list event }.

(** Computations of the script: they thread the world and the trace, and
    either return or raise. *)
Definition M (A : Type) : Type := state -> result A * state.

Definition ret {A} (a : A) : M A := fun s => (Ok a, s).

Definition raise {A} (e : exn) : M A := fun s => (Raise e, s).

Definition bind {A B} (m : M A) (k : A -> M B) : M B :=
  fun s => match m s with
           | (Ok a, s1) => k a s1
           | (Raise e, s1) => (Raise e, s1)
           end.

Notation "x <- m ;; k" := (bind m (fun x => k))
  (at level 61, m at next level, right associativity).
Notation "m ;; k" := (bind m (fun _ => k))
  (at level 61, right associativity).

Definition emit (ev : event) : M unit :=
  fun s => (Ok tt, mkState (world s) (trace s ++ [ev])).

Definition print (line : string) : M unit := emit (EPrint line).

(** [time.sleep(d)]: refuses a negative length, otherwise time passes. *)
Definition sleep (d : Z) : M unit :=
  if d <? 0 then raise (mkExn ValueError "sleep length must be non-negative")
  else fun s => (Ok tt, mkState (elapse d (world s)) (trace s ++ [ESleep d])).

(** The call of [func] on its arguments: the call is recorded, then the endpoint acts on
    the world. *)
Definition call (func : callable) (kw : kwargs) : M Response :=
  fun s => let (r, w) := invoke func kw (world s) in
           (r, mkState w (trace s ++ [ECall func kw])).

(** [try: body except (classes) as e: handler e]. *)
Definition try_except {A} (body : M A) (classes : list exn_class)
    (handler : exn -> M A) : M A :=
  fun s => match body s with
           | (Raise e, s1) => if catches classes e then handler e s1 else (Raise e, s1)
           | r => r
           end.

(** ** [retry_request] *)

(** The [for attempt in range(retries)] loop over the attempts left; a body
    that returns leaves the loop with [Some], the handler falls through to the
    next attempt, and the statement after the loop raises. *)
Fixpoint retry_loop (func : callable) (kw : kwargs) (retries delay : Z)
    (attempts : list Z) : M Response :=
  match attempts with
  | [] => raise (mkExn Exception_ ("Falha após " ++ str_Z retries ++ " tentativas."))
  | attempt :: rest =>
      r <- try_except
             (v <- call func kw ;; ret (Some v))
             transient_classes
             (fun e =>
                print ("Erro de conexão: " ++ exn_msg e ++ ". Tentativa "
                       ++ str_Z (attempt + 1) ++ " de " ++ str_Z retries ++ "...") ;;
                sleep delay ;;
                ret None) ;;
      match r with
      | Some v => ret v
      | None => retry_loop func kw retries delay rest
      end
  end.

Definition retry_request (func : callable) (kw : kwargs) (retries delay : Z)
    : M Response :=
  retry_loop func kw retries delay (range retries).

(** A pure frame operation used inside the script. *)
Definition lift {A} (r : result A) : M A := fun s => (r, s).

(** [os.makedirs(path, exist_ok=True)] and [df.to_csv(path, index=False)]:
    the file system is an external collaborator, taken to accept both. *)
Definition makedirs (path : string) : M unit := emit (EMakedirs path).
Definition to_csv (df : DataFrame) (path : string) : M unit := emit (EWriteCsv path df).

(** A [for x in xs] loop whose body neither breaks nor returns. *)
Fixpoint for_each {A} (xs : list A) (body : A -> M unit) : M unit :=
  match xs with
  | [] => ret tt
  | x :: xs' => body x ;; for_each xs' body
  end.

(** ** The fetchers *)

(** [response.get_data_frames()[0]]. *)
Definition first_frame (response : Response) : M DataFrame :=
  match get_data_frames response with
  | df :: _ => ret df
  | [] => raise (mkExn IndexError "list index out of range")
  end.

Definition get_team_game_logs (team_id : Z) (season : string) : M DataFrame :=
  print ("Coletando log de jogos para o time " ++ str_Z team_id
         ++ " na temporada " ++ season ++ "...") ;;
  gamelog <- retry_request TeamGameLog
               [("team_id", VInt team_id); ("season", VStr season)] 5 10 ;;
  first_frame gamelog.

Definition get_team_roster (team_id : Z) (season : string) : M DataFrame :=
  print ("Coletando roster para o time " ++ str_Z team_id
         ++ " na temporada " ++ season ++ "...") ;;
  roster <- retry_request CommonTeamRoster
              [("team_id", VInt team_id); ("season", VStr season)] 5 10 ;;
  first_frame roster.

Definition get_player_game_logs (player_id : value) (season : string) : M DataFrame :=
  print ("Coletando logs de jogos para o jogador " ++ str_value player_id
         ++ " na temporada " ++ season ++ "...") ;;
  pgl <- retry_request PlayerGameLog
           [("player_id", player_id); ("season", VStr season)] 5 10 ;;
  first_frame pgl.

(** ** The roster filter *)

Definition get_player_ids (roster_df : DataFrame) (players : list string) : M dict :=
  col <- lift (get_column roster_df "PLAYER") ;;
  let filtered := select_rows roster_df (isin col players) in
  if df_empty filtered then
    print "Nenhum jogador encontrado no roster!" ;;
    ret []
  else
    names <- lift (get_column filtered "PLAYER") ;;
    ids <- lift (get_column filtered "PLAYER_ID") ;;
    ret (dict_of (combine names ids)).

(** ** The two conference tables *)

(** The frame [listar_times_por_conferencia] builds from the standings. *)
Definition times_por_conferencia (df_standings : DataFrame) : result DataFrame :=
  match get_column df_standings "Conference" with
  | Raise e => Raise e
  | Ok conference =>
  match select_columns (select_rows df_standings (eq_mask conference "East"))
                       ["TeamName"; "TeamID"] with
  | Raise e => Raise e
  | Ok leste =>
  let conferencia_leste := assign_const leste "Conferencia" (VStr "Leste") in
  match select_columns (select_rows df_standings (eq_mask conference "West"))
                       ["TeamName"; "TeamID"] with
  | Raise e => Raise e
  | Ok oeste =>
  let conferencia_oeste := assign_const oeste "Conferencia" (VStr "Oeste") in
  Ok (rename [("TeamName", "Nome"); ("TeamID", "ID")]
        (concat conferencia_leste conferencia_oeste))
  end end end.

Definition listar_times_por_conferencia (output_dir : string) : M DataFrame :=
  standings <- retry_request LeagueStandings [] 5 10 ;;
  df_standings <- first_frame standings ;;
  df_times <- lift (times_por_conferencia df_standings) ;;
  makedirs output_dir ;;
  let output_path := path_join output_dir "times_por_conferencia.csv" in
  to_csv df_times output_path ;;
  print ("Lista de times por conferência salva em: " ++ output_path) ;;
  ret df_times.

(** [[col for col in columns_required if col in df_standings.columns]]. *)
Definition columns_available (df_standings : DataFrame) : list string :=
  filter (has_column df_standings) ["TeamName"; "Conference"; "WinPCT"].

(** The frame [obter_classificacao_atual] builds from the standings. *)
Definition classificacao_por_conferencia (df_standings : DataFrame) : result DataFrame :=
  if negb (has_column df_standings "Conference") then
    Raise (mkExn KeyError
             "A coluna 'Conference' não está disponível no DataFrame retornado.")
  else
  match get_column df_standings "Conference" with
  | Raise e => Raise e
  | Ok conference =>
  match select_columns (select_rows df_standings (eq_mask conference "East"))
                       (columns_available df_standings) with
  | Raise e => Raise e
  | Ok leste =>
  match select_columns (select_rows df_standings (eq_mask conference "West"))
                       (columns_available df_standings) with
  | Raise e => Raise e
  | Ok oeste =>
  let standings_leste := assign_const leste "Conferencia" (VStr "Leste") in
  let standings_oeste := assign_const oeste "Conferencia" (VStr "Oeste") in
  Ok (concat standings_leste standings_oeste)
  end end end.

Definition obter_classificacao_atual (output_dir : string) : M DataFrame :=
  standings <- retry_request LeagueStandings [] 5 10 ;;
  df_standings <- first_frame standings ;;
  emit (EPrintColumns "Colunas disponíveis em df_standings:" (df_columns df_standings)) ;;
  df_classificacao <- lift (classificacao_por_conferencia df_standings) ;;
  makedirs output_dir ;;
  let output_path := path_join output_dir "classificacao_por_conferencia.csv" in
  to_csv df_classificacao output_path ;;
  print ("Classificação atual por conferência salva em: " ++ output_path) ;;
  ret df_classificacao.

(** ** The run *)

(** One turn of the loop over [player_ids.items()]. *)
Definition process_player (season safe_season players_dir : string)
    (item : value * value) : M unit :=
  let (player, player_id) := item in
  pgl_df <- get_player_game_logs player_id season ;;
  match player with
  | VStr name =>
      let safe_player := replace_char " " "_" name in
      let player_filepath :=
        path_join players_dir (safe_player ++ "_games_" ++ safe_season ++ ".csv") in
      to_csv pgl_df player_filepath ;;
      print ("Dados dos jogos de " ++ name ++ " salvos em: " ++ player_filepath) ;;
      sleep 3
  | _ => raise (mkExn (OtherError "AttributeError") "object has no attribute 'replace'")
  end.

(** One turn of the loop over the seasons. *)
Definition process_season (team_id : Z) (players : list string) (season : string)
    : M unit :=
  let safe_season := replace_char "/" "-" season in
  let season_dir := path_join "data/raw" safe_season in
  let team_dir := path_join season_dir "team" in
  let players_dir := path_join season_dir "players" in
  makedirs team_dir ;;
  makedirs players_dir ;;
  print (nl ++ "=== Processando temporada " ++ season ++ " ===") ;;
  team_games <- get_team_game_logs team_id season ;;
  let team_games_filepath := path_join team_dir ("games_" ++ safe_season ++ ".csv") in
  to_csv team_games team_games_filepath ;;
  print ("Dados dos jogos do time salvos em: " ++ team_games_filepath) ;;
  sleep 2 ;;
  roster_df <- get_team_roster team_id season ;;
  let roster_filepath := path_join team_dir ("roster_" ++ safe_season ++ ".csv") in
  to_csv roster_df roster_filepath ;;
  print ("Dados do roster do time salvos em: " ++ roster_filepath) ;;
  sleep 2 ;;
  player_ids <- get_player_ids roster_df players ;;
  for_each player_ids (process_player season safe_season players_dir).

(** The part of [main] after the loop over the seasons. *)
Definition standings_phase : M unit :=
  print (nl ++ "=== Listando Times por Conferência (RF1) ===") ;;
  _ <- listar_times_por_conferencia "data/raw" ;;
  print (nl ++ "=== Obtendo Classificação Atual dos Times (RF2) ===") ;;
  _ <- obter_classificacao_atual "data/raw" ;;
  ret tt.

(** [main], with its three literals as parameters. *)
Definition run (team_id : Z) (seasons players : list string) : M unit :=
  for_each seasons (process_season team_id players) ;;
  standings_phase.

Definition main : M unit :=
  run 1610612763 ["2023-24"; "2024-25"]
      ["Ja Morant"; "Desmond Bane"; "Jaren Jackson Jr."].

End Script.

Arguments state : clear implicits.
Arguments M : clear implicits.

(** * Vocabulary of the properties *)

(** ** Traces of the retry wrapper *)

(** The diagnostic line of a caught failure. *)
Definition retry_line (e : exn) (attempt retries : Z) : string :=
  "Erro de conexão: " ++ exn_msg e ++ ". Tentativa "
  ++ str_Z (attempt + 1) ++ " de " ++ str_Z retries ++ "...".

(** What the wrapper does on a run of caught failures [es] met on the
    attempts [attempts]: call, report, wait, for each of them. *)
Fixpoint retry_trace (func : callable) (kw : kwargs) (retries delay : Z)
    (attempts : list Z) (es : list exn) : list event :=
  match attempts, es with
  | attempt :: attempts', e :: es' =>
      [ECall func kw; EPrint (retry_line e attempt retries); ESleep delay]
      ++ retry_trace func kw retries delay attempts' es'
  | _, _ => []
  end.

Definition is_call (ev : event) : bool :=
  match ev with ECall _ _ => true | _ => false end.

Definition is_sleep (ev : event) : bool :=
  match ev with ESleep _ => true | _ => false end.

(** How many times the operation was invoked, and how many waits happened,
    along a trace. *)
Definition calls (t : list event) : nat := length (filter is_call t).
Definition sleeps (t : list event) : nat := length (filter is_sleep t).

(** ** Rows selected by the filter and by the conference tables *)

(** The roster rows whose [PLAYER] cell is one of the requested names. *)
Definition matching_rows (roster_df : DataFrame) (players : list string)
    : list (list value) :=
  filter (fun r => is_member players (cell roster_df r "PLAYER")) (df_rows roster_df).

(** The standings rows of one conference. *)
Definition conference_rows (df : DataFrame) (conf : string) : list (list value) :=
  filter (fun r => value_eq_str (cell df r "Conference") conf) (df_rows df).

(** A standings row cut down to [cols] and given its conference label. *)
Definition labelled (df : DataFrame) (cols : list string) (label : string)
    (r : list value) : list value :=
  (map (cell df r) cols ++ [VStr label])%list.

(** The East rows labelled "Leste" followed by the West rows labelled "Oeste". *)
Definition east_then_west (df : DataFrame) (cols : list string) : list (list value) :=
  (map (labelled df cols "Leste") (conference_rows df "East")
   ++ map (labelled df cols "Oeste") (conference_rows df "West"))%list.

(** ** Traces of a run *)

Definition is_ok {A} (r : result A) : bool :=
  match r with Ok _ => true | Raise _ => false end.

(** The events of fetching from endpoint [f] through the wrapper with its
    default arguments: calls of [f], printed lines, and 10-second waits. *)
Definition fetch_event (f : callable) (ev : event) : Prop :=
  match ev with
  | ECall g _ => g = f
  | EPrint _ => True
  | ESleep d => d = 10
  | _ => False
  end.

(** How many waits of exactly [d] seconds a trace holds. *)
Definition sleeps_of (d : Z) (t : list event) : nat :=
  length (filter (fun ev => match ev with ESleep d' => d' =? d | _ => false end) t).

(** How many calls of the standings endpoint a trace holds. *)
Definition standings_calls (t : list event) : nat :=
  length (filter (fun ev => match ev with
                            | ECall LeagueStandings _ => true
                            | _ => false
                            end) t).

(** The pacing discipline, as a monitor reading the trace: a file written
    must be followed by its report line and then by a wait, of 2 seconds when
    the last endpoint called was team-level and of 3 seconds when it was
    player-level. *)
Inductive pacing :=
| Paced (last : option callable)
| Written (last : option callable)
| Reported (last : option callable)
| Unpaced.

Definition pace_ok (last : option callable) (d : Z) : bool :=
  match last with
  | Some (TeamGameLog | CommonTeamRoster) => d =? 2
  | Some PlayerGameLog => d =? 3
  | _ => true
  end.

Definition pacing_step (q : pacing) (ev : event) : pacing :=
  match q, ev with
  | Paced _, ECall f _ => Paced (Some f)
  | Paced last, EWriteCsv _ _ => Written last
  | Paced last, _ => Paced last
  | Written last, EPrint _ => Reported last
  | Reported last, ESleep d => if pace_ok last d then Paced last else Unpaced
  | _, _ => Unpaced
  end.

(** Every fetch-and-persist step of the trace is followed by its pacing wait. *)
Definition paced (t : list event) : bool :=
  match fold_left pacing_step t (Paced None) with
  | Paced _ => true
  | _ => false
  end.

(** A stretch of trace that keeps the discipline whatever came before it. *)
Definition keeps_pace (t : list event) : Prop :=
  forall last, exists last', fold_left pacing_step t (Paced last) = Paced last'.

(** ** A recorded session as the world *)

(** The provider answers the successive calls with the recorded outcomes, and
    is unreachable once they are used up. *)
Definition session := list (result (list DataFrame)).

Definition replay (func : callable) (kw : kwargs) (w : session)
    : result (list DataFrame) * session :=
  match w with
  | r :: w' => (r, w')
  | [] => (Raise (mkExn ConnectionError "Max retries exceeded"), [])
  end.

Definition frames (response : list DataFrame) : list DataFrame := response.

Definition no_clock (d : Z) (w : session) : session := w.

Definition games : DataFrame :=
  mkDF ["Game_ID"; "WL"; "PTS"] [[VStr "0022300061"; VStr "L"; VInt 104]].

Definition roster : DataFrame :=
  mkDF ["PLAYER"; "PLAYER_ID"]
       [[VStr "Ja Morant"; VInt 1]; [VStr "Desmond Bane"; VInt 2];
        [VStr "Jaren Jackson Jr."; VInt 3]; [VStr "Marcus Smart"; VInt 4]].

Definition standings : DataFrame :=
  mkDF ["TeamID"; "TeamName"; "Conference"; "WinPCT"]
       [[VInt 1610612763; VStr "Grizzlies"; VStr "West"; VFloat "0.329"];
        [VInt 1610612738; VStr "Celtics"; VStr "East"; VFloat "0.78"];
        [VInt 1610612747; VStr "Lakers"; VStr "West"; VFloat "0.573"]].

(** The standings a moment later, after one more game. *)
Definition standings_later : DataFrame :=
  mkDF ["TeamID"; "TeamName"; "Conference"; "WinPCT"]
       [[VInt 1610612763; VStr "Grizzlies"; VStr "West"; VFloat "0.337"];
        [VInt 1610612738; VStr "Celtics"; VStr "East"; VFloat "0.78"];
        [VInt 1610612747; VStr "Lakers"; VStr "West"; VFloat "0.566"]].

(** One season answered without failure: game log, roster, three players. *)
Definition season_session : session :=
  [Ok [games]; Ok [roster]; Ok [games]; Ok [games]; Ok [games]].

(** A whole run answered without failure. *)
Definition full_session : session :=
  (season_session ++ season_session ++ [Ok [standings]; Ok [standings_later]])%list.

Definition start (w : session) : state session := mkState w [].

Definition connection_refused : exn := mkExn ConnectionError "Connection refused".
Definition read_timed_out : exn := mkExn ReadTimeout "Read timed out.".
Definition bad_payload : exn := mkExn (OtherError "JSONDecodeError") "Expecting value".

(** A decidable form of [wf_df]. *)
Fixpoint distinct (l : list string) : bool :=
  match l with
  | [] => true
  | c :: l' => negb (existsb (String.eqb c) l') && distinct l'
  end.

Fixpoint distinct_values (l : list value) : bool :=
  match l with
  | [] => true
  | v :: l' => negb (existsb (value_eqb v) l') && distinct_values l'
  end.

Definition wf_dfb (df : DataFrame) : bool :=
  distinct (df_columns df)
  && forallb (fun r => Nat.eqb (length r) (length (df_columns df))) (df_rows df).

(** A standings frame that has the partition column but no [TeamName]. *)
Definition standings_without_names : DataFrame :=
  mkDF ["TeamID"; "Conference"; "WinPCT"]
       [[VInt 1610612738; VStr "East"; VFloat "0.78"];
        [VInt 1610612763; VStr "West"; VFloat "0.33"]].

(** A standings frame without the partition column. *)
Definition standings_without_conference : DataFrame :=
  mkDF ["TeamID"; "TeamName"; "WinPCT"]
       [[VInt 1610612763; VStr "Grizzlies"; VFloat "0.329"]].

(** ** Postconditions of the parts of a run *)

(** The name and identifier read off a roster row. *)
Definition roster_item (roster_df : DataFrame) (r : list value) : value * value :=
  (cell roster_df r "PLAYER", cell roster_df r "PLAYER_ID").

(** The outcome of a fetch from [f] with arguments [kw]: fetch events only,
    the last of which is the call that succeeded when it returns. *)
Definition fetched {A} (f : callable) (kw : kwargs) (r : result A) (t : list event)
    : Prop :=
  Forall (fetch_event f) t
  /\ (is_ok r = true ->
      exists t', t = (t' ++ [ECall f kw])%list /\ Forall (fetch_event f) t').

(** The events of the two standings functions: those of a fetch from the
    standings endpoint, the directory made, the file written, and the columns
    printed. *)
Definition standings_event (ev : event) : Prop :=
  match ev with
  | ECall f _ => f = LeagueStandings
  | ESleep d => d = 10
  | _ => True
  end.

Section Vocabulary.

Context {World Response : Type}.
Variable invoke : callable -> kwargs -> World -> result Response * World.
Variable elapse : Z -> World -> World.

(** The transient-failure sequence of the operation [func] on [kw] from a
    world: invoked again and again, with [delay] seconds passing after each
    failure, it raises the transient errors [es] one after the other and
    leaves the world as given. *)
Inductive fails_with (func : callable) (kw : kwargs) (delay : Z)
    : list exn -> World -> World -> Prop :=
| fw_nil w : fails_with func kw delay [] w w
| fw_cons e es w w1 w2 :
    invoke func kw w = (Raise e, w1) ->
    is_transient e = true ->
    fails_with func kw delay es (elapse delay w1) w2 ->
    fails_with func kw delay (e :: es) w w2.

(** From any state, [m] appends to the trace some events which, with the
    outcome, satisfy [P]. *)
Definition emits {A} (m : M World A) (P : result A -> list event -> Prop) : Prop :=
  forall s, exists t, trace (snd (m s)) = (trace s ++ t)%list /\ P (fst (m s)) t.

(** What one player's turn, and the loop over [n] players, emit. *)
Definition players_post (n : nat) (r : result unit) (t : list event) : Prop :=
  keeps_pace t
  /\ sleeps_of 2 t = O
  /\ (is_ok r = true -> sleeps_of 3 t = n).

(** What one season's turn emits. *)
Definition season_post (players : list string) (r : result unit) (t : list event)
    : Prop :=
  keeps_pace t
  /\ (is_ok r = true ->
      sleeps_of 2 t = 2%nat
      /\ exists (roster_df : DataFrame) (player_ids : dict),
          (forall s : state World, fst (get_player_ids roster_df players s) = Ok player_ids)
          /\ sleeps_of 3 t = length player_ids).

End Vocabulary.

(** ** Budgets and files of a run *)

(** The events of the wrapper run on [func] and [kw] with waits of [delay]
    seconds: calls of [func] on [kw], printed lines, and those waits. *)
Definition retry_event (func : callable) (kw : kwargs) (delay : Z) (ev : event) : Prop :=
  match ev with
  | ECall f k => f = func /\ k = kw
  | EPrint _ => True
  | ESleep d => d = delay
  | _ => False
  end.

(** The seconds spent in [time.sleep] along a trace. *)
Definition waited (t : list event) : Z :=
  fold_right (fun ev acc => match ev with ESleep d => d + acc | _ => acc end) 0 t.

(** The files written along a trace, in order, with their contents. *)
Definition files (t : list event) : list (string * DataFrame) :=
  flat_map (fun ev => match ev with EWriteCsv p df => [(p, df)] | _ => [] end) t.

(** The directories made along a trace, in order. *)
Definition dirs (t : list event) : list string :=
  flat_map (fun ev => match ev with EMakedirs p => [p] | _ => [] end) t.

(** The file a player's game log goes to. *)
Definition player_file (players_dir safe_season name : string) : string :=
  path_join players_dir (replace_char " " "_" name ++ "_games_" ++ safe_season ++ ".csv").

(** What a fetch costs and leaves on disk: at most five calls, no file, no
    directory. *)
Definition fetch_cost {A} (r : result A) (t : list event) : Prop :=
  files t = [] /\ dirs t = [] /\ (calls t <= 5)%nat.

(** What one player's turn leaves: at most five calls, no directory and,
    when it completes, the one file of that player. *)
Definition player_out (players_dir safe_season : string) (item : value * value)
    (r : result unit) (t : list event) : Prop :=
  dirs t = []
  /\ (calls t <= 5)%nat
  /\ (is_ok r = true ->
      exists name log,
        fst item = VStr name
        /\ files t = [(player_file players_dir safe_season name, log)]).

(** What the loop over the player map leaves. *)
Definition players_out (players_dir safe_season : string) (player_ids : dict)
    (r : result unit) (t : list event) : Prop :=
  dirs t = []
  /\ (calls t <= 5 * length player_ids)%nat
  /\ (is_ok r = true ->
      exists names logs,
        map fst player_ids = map VStr names
        /\ length logs = length names
        /\ files t = combine (map (player_file players_dir safe_season) names) logs).

(** What one season's turn leaves: its two directories, at most five calls
    per fetch, and, when it completes, the game log, the roster and one file
    per key of the map of the matching roster rows, in this order. *)
Definition season_out (players : list string) (season : string)
    (r : result unit) (t : list event) : Prop :=
  let safe_season := replace_char "/" "-" season in
  let season_dir := path_join "data/raw" safe_season in
  let team_dir := path_join season_dir "team" in
  let players_dir := path_join season_dir "players" in
  dirs t = [team_dir; players_dir]
  /\ (calls t <= 5 * (2 + length players))%nat
  /\ (is_ok r = true ->
      exists (team_games roster_df : DataFrame) (names : list string)
             (logs : list DataFrame),
        map fst (dict_of (map (roster_item roster_df)
                            (matching_rows roster_df players)))
        = map VStr names
        /\ length logs = length names
        /\ files t
           = (path_join team_dir ("games_" ++ safe_season ++ ".csv"), team_games)
             :: (path_join team_dir ("roster_" ++ safe_season ++ ".csv"), roster_df)
             :: combine (map (player_file players_dir safe_season) names) logs).



(** What a season that completes leaves, linking its 3-second waits to the
    roster it wrote: the game log, that roster and one file per key of the
    player map the filter returns on that roster, and one 3-second wait per
    entry of that map. *)
Definition season_link {World : Type} (players : list string) (season : string)
    (r : result unit) (t : list event) : Prop :=
  let safe_season := replace_char "/" "-" season in
  let season_dir := path_join "data/raw" safe_season in
  let team_dir := path_join season_dir "team" in
  let players_dir := path_join season_dir "players" in
  is_ok r = true ->
  exists (team_games roster_df : DataFrame) (player_ids : dict)
         (names : list string) (logs : list DataFrame),
    (forall s : state World, fst (get_player_ids roster_df players s) = Ok player_ids)
    /\ map fst player_ids = map VStr names
    /\ length logs = length names
    /\ files t
       = (path_join team_dir ("games_" ++ safe_season ++ ".csv"), team_games)
         :: (path_join team_dir ("roster_" ++ safe_season ++ ".csv"), roster_df)
         :: combine (map (player_file players_dir safe_season) names) logs
    /\ sleeps_of 3 t = length player_ids.

(** * Properties *)

(** ** Properties of [retry_request] *)

Section RetryProperties.

Context {World Response : Type}.
Variable invoke : callable -> kwargs -> World -> result Response * World.
Variable elapse : Z -> World -> World.
Variables (func : callable) (kw : kwargs) (retries delay : Z).

Lemma calls_app t u : calls (t ++ u) = (calls t + calls u)%nat.
Proof. unfold calls. now rewrite filter_app, length_app. Qed.

Lemma sleeps_app t u : sleeps (t ++ u) = (sleeps t + sleeps u)%nat.
Proof. unfold sleeps. now rewrite filter_app, length_app. Qed.

Lemma calls_retry_trace attempts es :
  length attempts = length es ->
  calls (retry_trace func kw retries delay attempts es) = length es.
Proof.
  revert es. induction attempts as [|a attempts IH]; intros [|e es] H;
    simpl in *; try discriminate; auto.
  injection H as H. unfold calls in *. simpl. now rewrite IH.
Qed.

Lemma sleeps_retry_trace attempts es :
  length attempts = length es ->
  sleeps (retry_trace func kw retries delay attempts es) = length es.
Proof.
  revert es. induction attempts as [|a attempts IH]; intros [|e es] H;
    simpl in *; try discriminate; auto.
  injection H as H. unfold sleeps in *. simpl. now rewrite IH.
Qed.

(** One caught failure: the wrapper reports it, waits, and goes on with the
    attempts left. *)
Lemma retry_loop_caught attempt rest s e w1 :
  invoke func kw (world s) = (Raise e, w1) ->
  is_transient e = true ->
  0 <= delay ->
  retry_loop invoke elapse func kw retries delay (attempt :: rest) s =
  retry_loop invoke elapse func kw retries delay rest
    (mkState (elapse delay w1)
       (trace s ++ [ECall func kw; EPrint (retry_line e attempt retries); ESleep delay])).
Proof.
  intros Hinv Htr Hd.
  cbn [retry_loop]. unfold bind, try_except, call. rewrite Hinv.
  fold (is_transient e). rewrite Htr.
  unfold print, emit, sleep, ret. cbn [world trace].
  destruct (delay <? 0) eqn:Hneg; [apply Z.ltb_lt in Hneg; lia|].
  cbn [world trace]. unfold retry_line. rewrite <- !app_assoc. reflexivity.
Qed.

(** A run of caught failures, one per attempt. *)
Lemma retry_loop_fails es :
  forall attempts rest s w',
    fails_with invoke elapse func kw delay es (world s) w' ->
    es = [] \/ 0 <= delay ->
    length attempts = length es ->
    retry_loop invoke elapse func kw retries delay (attempts ++ rest) s =
    retry_loop invoke elapse func kw retries delay rest
      (mkState w' (trace s ++ retry_trace func kw retries delay attempts es)).
Proof.
  induction es as [|e es IH]; intros attempts rest s w' Hf Hd Hlen.
  - destruct attempts; [|discriminate]. inversion Hf; subst.
    simpl. rewrite app_nil_r. now destruct s.
  - destruct attempts as [|a attempts]; [discriminate|].
    injection Hlen as Hlen. inversion Hf; subst.
    assert (0 <= delay) as Hd' by (destruct Hd; [discriminate|assumption]).
    rewrite <- app_comm_cons.
    rewrite (retry_loop_caught a (attempts ++ rest) s e w1); auto.
    rewrite (IH attempts rest _ w'); cbn [world trace]; auto.
    simpl. now rewrite <- app_assoc.
Qed.

Lemma range_split (n : nat) :
  (n <= Z.to_nat retries)%nat ->
  range retries =
  (map Z.of_nat (seq 0 n) ++ map Z.of_nat (seq n (Z.to_nat retries - n)))%list.
Proof.
  intros H. unfold range. rewrite <- map_app, <- seq_app. do 2 f_equal. lia.
Qed.

Lemma fails_with_firstn es :
  forall w w' n,
    fails_with invoke elapse func kw delay es w w' ->
    exists w'', fails_with invoke elapse func kw delay (firstn n es) w w''.
Proof.
  induction es as [|e es IH]; intros w w' n Hf.
  - rewrite firstn_nil. exists w. constructor.
  - destruct n as [|n]; [exists w; constructor|].
    inversion Hf; subst. destruct (IH _ _ n H5) as [w'' Hw''].
    exists w''. simpl. econstructor; eauto.
Qed.

Lemma retry_trace_firstn attempts :
  forall es, retry_trace func kw retries delay attempts (firstn (length attempts) es)
             = retry_trace func kw retries delay attempts es.
Proof.
  induction attempts as [|a attempts IH]; intros [|e es]; simpl; auto.
  now rewrite IH.
Qed.

Lemma length_range : length (range retries) = Z.to_nat retries.
Proof. unfold range. now rewrite length_map, length_seq. Qed.

(** The attempts still to come once [n] of them have failed. *)
Lemma range_after (n : nat) :
  (n < Z.to_nat retries)%nat ->
  exists rest,
    range retries = (map Z.of_nat (seq 0 n) ++ Z.of_nat n :: rest)%list.
Proof.
  intros H. rewrite (range_split n) by lia.
  replace (Z.to_nat retries - n)%nat with (S (Z.to_nat retries - S n)) by lia.
  simpl. eauto.
Qed.

Lemma retry_trace_prefix pre :
  forall es post, length pre = length es ->
    retry_trace func kw retries delay (pre ++ post) es
    = retry_trace func kw retries delay pre es.
Proof.
  induction pre as [|a pre IH]; intros [|e es] post H; simpl in *;
    try discriminate; auto.
  - now destruct post.
  - injection H as H. now rewrite IH.
Qed.

(** C10.  With [retries] equal to 0 the wrapper raises its exhaustion error
    at once: the state it leaves is the state it was given, so the operation
    was not invoked, nothing was printed and no wait took place. *)
Theorem retry_request_no_attempt (s : state World) :
  retry_request invoke elapse func kw 0 delay s
  = (Raise (mkExn Exception_ "Falha após 0 tentativas."), s).
Proof. reflexivity. Qed.

(** C3.  When the operation fails transiently on at least [retries]
    successive invocations, the wrapper invokes it exactly [retries] times
    (each failure reported and followed by the wait) and then raises the
    exhaustion error, whose message carries the number of attempts. *)
Theorem retry_request_exhausted (es : list exn) (s : state World) (w' : World) :
  0 <= retries ->
  0 <= delay ->
  fails_with invoke elapse func kw delay es (world s) w' ->
  (Z.to_nat retries <= length es)%nat ->
  exists w'' t,
    retry_request invoke elapse func kw retries delay s
    = (Raise (mkExn Exception_ ("Falha após " ++ str_Z retries ++ " tentativas.")),
       mkState w'' (trace s ++ t))
    /\ t = retry_trace func kw retries delay (range retries) es
    /\ Z.of_nat (calls t) = retries
    /\ Z.of_nat (sleeps t) = retries.
Proof.
  intros Hr Hd Hf Hlen.
  destruct (fails_with_firstn es _ _ (Z.to_nat retries) Hf) as [w'' Hw''].
  assert (length (range retries) = length (firstn (Z.to_nat retries) es)) as Hl
    by (rewrite length_range, length_firstn; lia).
  exists w'', (retry_trace func kw retries delay (range retries) es).
  split; [|split; [reflexivity|]].
  - unfold retry_request.
    rewrite <- (retry_trace_firstn (range retries) es), length_range.
    pose proof (retry_loop_fails _ (range retries) [] s w'' Hw'' (or_intror Hd) Hl)
      as Hrun.
    rewrite app_nil_r in Hrun. rewrite Hrun. reflexivity.
  - rewrite <- (retry_trace_firstn (range retries) es), length_range.
    rewrite calls_retry_trace, sleeps_retry_trace by exact Hl.
    rewrite length_firstn. lia.
Qed.

(** C4.  When an attempt raises an error outside the caught classes, after
    any number of caught failures, the wrapper raises that very error and
    leaves the state as that attempt left it: the failing call is the last
    event, with no report, no wait and no further invocation after it. *)
Theorem retry_request_propagates (es : list exn) (e : exn) (s : state World)
    (w1 w2 : World) :
  fails_with invoke elapse func kw delay es (world s) w1 ->
  Z.of_nat (length es) < retries ->
  es = [] \/ 0 <= delay ->
  invoke func kw w1 = (Raise e, w2) ->
  is_transient e = false ->
  let t := retry_trace func kw retries delay (range retries) es in
  retry_request invoke elapse func kw retries delay s
  = (Raise e, mkState w2 (trace s ++ t ++ [ECall func kw]))
  /\ calls (t ++ [ECall func kw]) = S (length es)
  /\ sleeps (t ++ [ECall func kw]) = length es.
Proof.
  intros Hf Hlt Hd Hinv Hnt t.
  destruct (range_after (length es)) as [rest Hrange]; [lia|].
  assert (length (map Z.of_nat (seq 0 (length es))) = length es) as Hl
    by now rewrite length_map, length_seq.
  assert (t = retry_trace func kw retries delay (map Z.of_nat (seq 0 (length es))) es)
    as Ht by (unfold t; rewrite Hrange; now apply retry_trace_prefix).
  split; [|split].
  - unfold retry_request. rewrite Hrange.
    rewrite (retry_loop_fails es _ _ s w1 Hf Hd Hl). rewrite <- Ht.
    cbn [retry_loop]. unfold bind, try_except, call. cbn [world trace].
    rewrite Hinv. fold (is_transient e). rewrite Hnt.
    now rewrite <- app_assoc.
  - rewrite calls_app, Ht, calls_retry_trace by assumption.
    change (calls [ECall func kw]) with 1%nat. lia.
  - rewrite sleeps_app, Ht, sleeps_retry_trace by assumption.
    change (sleeps [ECall func kw]) with 0%nat. lia.
Qed.

(** C5.  When the operation succeeds on an attempt reached after fewer than
    [retries] caught failures, the wrapper returns that result and leaves the
    state as the successful call left it: one wait per earlier failure, none
    after the success. *)
Theorem retry_request_returns (es : list exn) (v : Response) (s : state World)
    (w1 w2 : World) :
  fails_with invoke elapse func kw delay es (world s) w1 ->
  Z.of_nat (length es) < retries ->
  es = [] \/ 0 <= delay ->
  invoke func kw w1 = (Ok v, w2) ->
  let t := retry_trace func kw retries delay (range retries) es in
  retry_request invoke elapse func kw retries delay s
  = (Ok v, mkState w2 (trace s ++ t ++ [ECall func kw]))
  /\ calls (t ++ [ECall func kw]) = S (length es)
  /\ sleeps (t ++ [ECall func kw]) = length es.
Proof.
  intros Hf Hlt Hd Hinv t.
  destruct (range_after (length es)) as [rest Hrange]; [lia|].
  assert (length (map Z.of_nat (seq 0 (length es))) = length es) as Hl
    by now rewrite length_map, length_seq.
  assert (t = retry_trace func kw retries delay (map Z.of_nat (seq 0 (length es))) es)
    as Ht by (unfold t; rewrite Hrange; now apply retry_trace_prefix).
  split; [|split].
  - unfold retry_request. rewrite Hrange.
    rewrite (retry_loop_fails es _ _ s w1 Hf Hd Hl). rewrite <- Ht.
    cbn [retry_loop]. unfold bind, try_except, call. cbn [world trace].
    rewrite Hinv. unfold ret. now rewrite <- app_assoc.
  - rewrite calls_app, Ht, calls_retry_trace by assumption.
    change (calls [ECall func kw]) with 1%nat. lia.
  - rewrite sleeps_app, Ht, sleeps_retry_trace by assumption.
    change (sleeps [ECall func kw]) with 0%nat. lia.
Qed.

End RetryProperties.

(** ** Properties of the roster filter *)

Section FrameFacts.

Lemma value_eqb_eq a b : value_eqb a b = true <-> a = b.
Proof.
  destruct a, b; simpl; split; intros H; try discriminate;
    try (apply String.eqb_eq in H; now subst);
    try (apply Z.eqb_eq in H; now subst);
    try (injection H as ->; first [apply String.eqb_refl | apply Z.eqb_refl]).
Qed.

Lemma value_eqb_refl a : value_eqb a a = true.
Proof. now apply value_eqb_eq. Qed.

Lemma select_rows_map (df : DataFrame) (f : list value -> bool) :
  select_rows df (map f (df_rows df)) = mkDF (df_columns df) (filter f (df_rows df)).
Proof.
  unfold select_rows. f_equal.
  induction (df_rows df) as [|r rows IH]; simpl; auto.
  destruct (f r); simpl; now rewrite IH.
Qed.

Lemma has_column_same_columns (df df' : DataFrame) c :
  df_columns df' = df_columns df -> has_column df' c = has_column df c.
Proof. intros H. unfold has_column. now rewrite H. Qed.

Lemma combine_map_map {A B C} (f : A -> B) (g : A -> C) (l : list A) :
  combine (map f l) (map g l) = map (fun x => (f x, g x)) l.
Proof. induction l; simpl; congruence. Qed.

Lemma find_map {A B} (p : B -> bool) (h : A -> B) (l : list A) :
  find p (map h l) = option_map h (find (fun x => p (h x)) l).
Proof.
  induction l as [|x l IH]; simpl; auto. now destruct (p (h x)).
Qed.

Lemma find_app {A} (p : A -> bool) (l l' : list A) :
  find p (l ++ l') = match find p l with Some x => Some x | None => find p l' end.
Proof.
  induction l as [|x l IH]; simpl; auto. now destruct (p x).
Qed.

End FrameFacts.

Section DictFacts.

Lemma dict_get_set (d : dict) (k v k' : value) :
  dict_get (dict_set d k v) k' = if value_eqb k' k then Some v else dict_get d k'.
Proof.
  induction d as [|[k0 v0] d IH]; simpl.
  - reflexivity.
  - destruct (value_eqb k k0) eqn:E; simpl.
    + apply value_eqb_eq in E. subst k0. now destruct (value_eqb k' k).
    + rewrite IH. destruct (value_eqb k' k0) eqn:E'; auto.
      apply value_eqb_eq in E'. subst k0.
      destruct (value_eqb k' k) eqn:E''; auto.
      apply value_eqb_eq in E''. subst. rewrite value_eqb_refl in E. discriminate.
Qed.

Lemma dict_keys_set (d : dict) (k v : value) :
  map fst (dict_set d k v)
  = if existsb (value_eqb k) (map fst d) then map fst d else (map fst d ++ [k])%list.
Proof.
  induction d as [|[k0 v0] d IH]; simpl; auto.
  destruct (value_eqb k k0); simpl; auto.
  rewrite IH. now destruct (existsb (value_eqb k) (map fst d)).
Qed.

Lemma existsb_value_eqb k l : existsb (value_eqb k) l = true <-> In k l.
Proof.
  rewrite existsb_exists. split.
  - intros [x [Hin E]]. apply value_eqb_eq in E. now subst.
  - intros Hin. exists k. split; auto. apply value_eqb_refl.
Qed.

Lemma dict_set_NoDup (d : dict) (k v : value) :
  NoDup (map fst d) -> NoDup (map fst (dict_set d k v)).
Proof.
  intros H. rewrite dict_keys_set.
  destruct (existsb (value_eqb k) (map fst d)) eqn:E; auto.
  apply NoDup_app; auto.
  - constructor; [intros []|constructor].
  - intros x Hx [<-|[]]. apply existsb_value_eqb in Hx. congruence.
Qed.

Lemma dict_set_In (d : dict) (k v x : value) :
  In x (map fst (dict_set d k v)) <-> x = k \/ In x (map fst d).
Proof.
  rewrite dict_keys_set.
  destruct (existsb (value_eqb k) (map fst d)) eqn:E.
  - apply existsb_value_eqb in E. split; auto. intros [->|H]; auto.
  - rewrite in_app_iff. simpl. intuition.
Qed.

Lemma dict_fold_get (pairs : list (value * value)) :
  forall (d : dict) (k : value),
    dict_get (fold_left (fun d kv => dict_set d (fst kv) (snd kv)) pairs d) k
    = match find (fun kv => value_eqb k (fst kv)) (rev pairs) with
      | Some kv => Some (snd kv)
      | None => dict_get d k
      end.
Proof.
  induction pairs as [|[k0 v0] pairs IH]; intros d k; simpl; auto.
  rewrite IH, find_app. simpl.
  destruct (find (fun kv => value_eqb k (fst kv)) (rev pairs)); auto.
  rewrite dict_get_set. now destruct (value_eqb k k0).
Qed.

Lemma dict_fold_keys (pairs : list (value * value)) :
  forall d : dict,
    NoDup (map fst d) ->
    let d' := fold_left (fun d kv => dict_set d (fst kv) (snd kv)) pairs d in
    NoDup (map fst d')
    /\ forall x, In x (map fst d') <-> In x (map fst pairs) \/ In x (map fst d).
Proof.
  induction pairs as [|[k0 v0] pairs IH]; intros d Hd; simpl.
  - split; auto. intuition.
  - destruct (IH (dict_set d k0 v0) (dict_set_NoDup d k0 v0 Hd)) as [Hn Hin].
    split; auto. intros x. rewrite Hin, dict_set_In. intuition.
Qed.

(** The value under a key of [dict(pairs)] is that of the last pair with
    this key. *)
Lemma dict_of_get (pairs : list (value * value)) (k : value) :
  dict_get (dict_of pairs) k
  = option_map snd (find (fun kv => value_eqb k (fst kv)) (rev pairs)).
Proof.
  unfold dict_of. rewrite dict_fold_get. simpl.
  now destruct (find (fun kv => value_eqb k (fst kv)) (rev pairs)).
Qed.

Lemma dict_of_keys (pairs : list (value * value)) :
  NoDup (map fst (dict_of pairs))
  /\ forall x, In x (map fst (dict_of pairs)) <-> In x (map fst pairs).
Proof.
  destruct (dict_fold_keys pairs [] (NoDup_nil _)) as [Hn Hin].
  split; auto. intros x. rewrite (Hin x). simpl. intuition.
Qed.

End DictFacts.

Section RosterFilter.

Context {World : Type}.
Variables (roster_df : DataFrame) (players : list string).

Lemma has_column_nonempty (df : DataFrame) c :
  has_column df c = true -> df_columns df <> [].
Proof. unfold has_column. destruct (df_columns df); [discriminate|congruence]. Qed.

Lemma get_column_present (df : DataFrame) c :
  has_column df c = true ->
  get_column df c = Ok (map (fun r => cell df r c) (df_rows df)).
Proof. intros H. unfold get_column. now rewrite H. Qed.

(** The frame [filtered] of [get_player_ids]. *)
Lemma filtered_rows :
  select_rows roster_df
    (isin (map (fun r => cell roster_df r "PLAYER") (df_rows roster_df)) players)
  = mkDF (df_columns roster_df) (matching_rows roster_df players).
Proof.
  unfold isin. rewrite map_map.
  apply (select_rows_map roster_df
           (fun r => is_member players (cell roster_df r "PLAYER"))).
Qed.

Lemma get_player_ids_run (s : state World) :
  has_column roster_df "PLAYER" = true ->
  has_column roster_df "PLAYER_ID" = true ->
  get_player_ids roster_df players s
  = match matching_rows roster_df players with
    | [] => (Ok [], mkState (world s)
                      (trace s ++ [EPrint "Nenhum jogador encontrado no roster!"]))
    | rows => (Ok (dict_of (map (roster_item roster_df) rows)), s)
    end.
Proof.
  intros Hp Hid. unfold get_player_ids, bind, lift.
  rewrite (get_column_present _ _ Hp), filtered_rows.
  pose proof (has_column_nonempty _ _ Hp) as Hne.
  unfold df_empty. cbn [df_columns df_rows].
  destruct (df_columns roster_df) as [|c0 cols] eqn:Hcols; [congruence|].
  destruct (matching_rows roster_df players) as [|r rows] eqn:Hm.
  - reflexivity.
  - rewrite <- Hcols.
    set (filtered := mkDF (df_columns roster_df) (r :: rows)).
    assert (df_columns filtered = df_columns roster_df) as Hsame by reflexivity.
    rewrite !get_column_present
      by (rewrite (has_column_same_columns roster_df filtered); auto).
    unfold ret. cbn [df_rows filtered]. rewrite combine_map_map.
    do 3 f_equal.
Qed.

Lemma matching_rows_member r :
  In r (matching_rows roster_df players) ->
  exists name, cell roster_df r "PLAYER" = VStr name /\ In name players.
Proof.
  unfold matching_rows. rewrite filter_In. intros [_ H].
  destruct (cell roster_df r "PLAYER") as [name| |]; try discriminate.
  exists name. split; auto. simpl in H. apply existsb_exists in H.
  destruct H as [x [Hin E]]. apply String.eqb_eq in E. now subst.
Qed.

(** C7.  On a roster frame that has the [PLAYER] and [PLAYER_ID] columns the
    filter returns, without failing, a map whose keys are exactly the names
    of the rows whose [PLAYER] cell is a requested name, each mapped to the
    [PLAYER_ID] of that row (of the last such row if a name occurs twice);
    when no row matches it prints the warning and returns the empty map, and
    otherwise prints nothing; the map never has more entries than there are
    requested names. *)
Theorem get_player_ids_spec (s : state World) :
  wf_df roster_df ->
  has_column roster_df "PLAYER" = true ->
  has_column roster_df "PLAYER_ID" = true ->
  exists (d : dict) (t : list event),
    get_player_ids roster_df players s = (Ok d, mkState (world s) (trace s ++ t))
    /\ (forall k,
          dict_get d k
          = option_map (fun r => cell roster_df r "PLAYER_ID")
              (find (fun r => value_eqb k (cell roster_df r "PLAYER"))
                    (rev (matching_rows roster_df players))))
    /\ (forall k, In k (map fst d) <->
                  exists r, In r (matching_rows roster_df players)
                            /\ cell roster_df r "PLAYER" = k)
    /\ NoDup (map fst d)
    /\ (matching_rows roster_df players = [] ->
        d = [] /\ t = [EPrint "Nenhum jogador encontrado no roster!"])
    /\ (matching_rows roster_df players <> [] -> t = [])
    /\ (length d <= length players)%nat.
Proof.
  intros _ Hp Hid.
  set (rows := matching_rows roster_df players).
  exists (dict_of (map (roster_item roster_df) rows)),
         (match rows with [] => [EPrint "Nenhum jogador encontrado no roster!"]
                        | _ => [] end).
  destruct (dict_of_keys (map (roster_item roster_df) rows)) as [Hnd Hkeys].
  assert (forall k, In k (map fst (dict_of (map (roster_item roster_df) rows))) <->
                    exists r, In r rows /\ cell roster_df r "PLAYER" = k) as Hin.
  { intros k. rewrite Hkeys, map_map. simpl. rewrite in_map_iff.
    split; intros [r [H1 H2]]; exists r; auto. }
  repeat split.
  - rewrite get_player_ids_run by assumption. fold rows.
    destruct rows; [reflexivity|]. rewrite app_nil_r. now destruct s.
  - intros k. rewrite dict_of_get, <- map_rev, find_map. simpl.
    now destruct (find _ (rev rows)).
  - apply Hin.
  - apply Hin.
  - exact Hnd.
  - now rewrite H.
  - now rewrite H.
  - intros H. destruct rows; congruence.
  - rewrite <- (length_map fst), <- (length_map VStr players).
    apply NoDup_incl_length; auto.
    intros k Hk. apply Hin in Hk. destruct Hk as [r [Hr <-]].
    destruct (matching_rows_member r Hr) as [name [-> Hname]].
    now apply in_map.
Qed.

End RosterFilter.

(** ** Properties of the two conference tables *)

Section ConferenceTables.

Variable df : DataFrame.

Lemma conference_frame (conf : string) :
  select_rows df
    (eq_mask (map (fun r => cell df r "Conference") (df_rows df)) conf)
  = mkDF (df_columns df) (conference_rows df conf).
Proof.
  unfold eq_mask. rewrite map_map.
  apply (select_rows_map df (fun r => value_eq_str (cell df r "Conference") conf)).
Qed.

Lemma select_columns_present (rows : list (list value)) (cols : list string) :
  forallb (has_column df) cols = true ->
  select_columns (mkDF (df_columns df) rows) cols
  = Ok (mkDF cols (map (fun r => map (cell df r) cols) rows)).
Proof.
  intros H. unfold select_columns.
  replace (filter (fun c => negb (has_column (mkDF (df_columns df) rows) c)) cols)
    with (@nil string); [reflexivity|].
  symmetry. induction cols as [|c cols IH]; simpl in *; auto.
  apply andb_prop in H. destruct H as [Hc Hcols].
  change (has_column (mkDF (df_columns df) rows) c) with (has_column df c).
  rewrite Hc. simpl. now apply IH.
Qed.

Lemma conference_rows_disjoint :
  (length (conference_rows df "East") + length (conference_rows df "West")
   <= length (df_rows df))%nat.
Proof.
  unfold conference_rows. induction (df_rows df) as [|r rows IH]; simpl; auto.
  destruct (cell df r "Conference") as [c| |]; simpl; try lia.
  destruct (String.eqb c "East") eqn:E; simpl.
  - apply String.eqb_eq in E. subst c. simpl. lia.
  - destruct (String.eqb c "West"); simpl; lia.
Qed.

Lemma length_east_then_west (cols : list string) :
  (length (east_then_west df cols) <= length (df_rows df))%nat.
Proof.
  unfold east_then_west. rewrite length_app, !length_map.
  apply conference_rows_disjoint.
Qed.

Lemma times_por_conferencia_run :
  has_column df "Conference" = true ->
  has_column df "TeamName" = true ->
  has_column df "TeamID" = true ->
  times_por_conferencia df
  = Ok (mkDF ["Nome"; "ID"; "Conferencia"]
             (east_then_west df ["TeamName"; "TeamID"])).
Proof.
  intros Hc Hn Hi. unfold times_por_conferencia.
  rewrite (get_column_present _ _ Hc), !conference_frame.
  rewrite !select_columns_present by (simpl; now rewrite Hn, Hi).
  unfold east_then_west, concat, reindex, assign_const, rename.
  cbn [index_of String.eqb Ascii.eqb Bool.eqb option_map df_columns df_rows
       has_column existsb negb orb filter app map find fst snd].
  f_equal. f_equal. rewrite !map_map. reflexivity.
Qed.

Lemma classificacao_por_conferencia_run :
  has_column df "Conference" = true ->
  classificacao_por_conferencia df
  = Ok (mkDF (columns_available df ++ ["Conferencia"])
             (east_then_west df (columns_available df))).
Proof.
  intros Hc. unfold classificacao_por_conferencia. rewrite Hc. cbn [negb].
  rewrite (get_column_present _ _ Hc), !conference_frame.
  assert (forallb (has_column df) (columns_available df) = true) as Hav.
  { unfold columns_available. apply forallb_forall. intros c Hin.
    now apply filter_In in Hin. }
  rewrite !select_columns_present by exact Hav.
  unfold east_then_west, columns_available. cbn [filter]. rewrite Hc.
  destruct (has_column df "TeamName"), (has_column df "WinPCT");
    unfold concat, reindex, assign_const;
    cbn [index_of String.eqb Ascii.eqb Bool.eqb option_map df_columns df_rows
         has_column existsb negb orb filter app map];
    f_equal; f_equal; rewrite !map_map; reflexivity.
Qed.

End ConferenceTables.

Section ConferenceOutputs.

Context {World Response : Type}.
Variable invoke : callable -> kwargs -> World -> result Response * World.
Variable get_data_frames : Response -> list DataFrame.
Variable elapse : Z -> World -> World.

(** C8.  On a standings frame that has the [Conference] column, the
    classification table holds exactly the rows whose [Conference] cell is
    "East", each labelled "Leste", followed by the rows whose cell is "West",
    each labelled "Oeste", and no other row; the listing does the same on a
    frame that also has [TeamName] and [TeamID]; neither has more rows than
    the standings frame. *)
Theorem conference_tables_spec (df : DataFrame) :
  wf_df df ->
  has_column df "Conference" = true ->
  (exists out,
      classificacao_por_conferencia df = Ok out
      /\ df_columns out = (columns_available df ++ ["Conferencia"])%list
      /\ df_rows out
         = (map (labelled df (columns_available df) "Leste") (conference_rows df "East")
            ++ map (labelled df (columns_available df) "Oeste")
                   (conference_rows df "West"))%list
      /\ (length (df_rows out) <= length (df_rows df))%nat)
  /\ (has_column df "TeamName" = true ->
      has_column df "TeamID" = true ->
      exists out,
        times_por_conferencia df = Ok out
        /\ df_columns out = ["Nome"; "ID"; "Conferencia"]
        /\ df_rows out
           = (map (labelled df ["TeamName"; "TeamID"] "Leste") (conference_rows df "East")
              ++ map (labelled df ["TeamName"; "TeamID"] "Oeste")
                     (conference_rows df "West"))%list
        /\ (length (df_rows out) <= length (df_rows df))%nat)
  /\ (forall conf r,
        In r (conference_rows df conf) <->
        In r (df_rows df) /\ cell df r "Conference" = VStr conf).
Proof.
  intros _ Hc. split; [|split].
  - eexists. split; [apply classificacao_por_conferencia_run; assumption|].
    cbn [df_columns df_rows]. repeat split. apply length_east_then_west.
  - intros Hn Hi.
    eexists. split; [apply times_por_conferencia_run; assumption|].
    cbn [df_columns df_rows]. repeat split. apply length_east_then_west.
  - intros conf r. unfold conference_rows. rewrite filter_In.
    split; intros [Hin H]; split; auto.
    + destruct (cell df r "Conference") as [c| |]; try discriminate.
      simpl in H. apply String.eqb_eq in H. now subst.
    + rewrite H. simpl. apply String.eqb_refl.
Qed.

(** C6.  When the standings frame a conference function has fetched lacks the
    [Conference] column, the function raises [KeyError] and leaves the trace
    as the fetch left it (the classification having printed the columns): no
    directory is made and no file is written, and being raised the call hands
    back no table. *)
Theorem conference_column_absent (output_dir : string) (s s1 : state World)
    (standings : Response) (df : DataFrame) (others : list DataFrame) :
  retry_request invoke elapse LeagueStandings [] 5 10 s = (Ok standings, s1) ->
  get_data_frames standings = df :: others ->
  has_column df "Conference" = false ->
  listar_times_por_conferencia invoke get_data_frames elapse output_dir s
  = (Raise (mkExn KeyError "Conference"), s1)
  /\ obter_classificacao_atual invoke get_data_frames elapse output_dir s
     = (Raise (mkExn KeyError
                 "A coluna 'Conference' não está disponível no DataFrame retornado."),
        mkState (world s1)
          (trace s1 ++ [EPrintColumns "Colunas disponíveis em df_standings:"
                          (df_columns df)])).
Proof.
  intros Hfetch Hframes Habs. split.
  - unfold listar_times_por_conferencia, bind. rewrite Hfetch.
    unfold first_frame. rewrite Hframes. unfold ret, lift, times_por_conferencia,
      get_column. now rewrite Habs.
  - unfold obter_classificacao_atual, bind. rewrite Hfetch.
    unfold first_frame. rewrite Hframes.
    unfold ret, lift, emit, classificacao_por_conferencia. now rewrite Habs.
Qed.

End ConferenceOutputs.

(** C2.  On a standings frame with [Conference] but without [TeamName] the
    classification keeps the desired columns that are there and succeeds,
    whereas the listing raises [KeyError] for the missing column. *)
Theorem listing_needs_every_column :
  classificacao_por_conferencia standings_without_names
  = Ok (mkDF ["Conference"; "WinPCT"; "Conferencia"]
             [[VStr "East"; VFloat "0.78"; VStr "Leste"];
              [VStr "West"; VFloat "0.33"; VStr "Oeste"]])
  /\ times_por_conferencia standings_without_names
     = Raise (mkExn KeyError "TeamName").
Proof. split; reflexivity. Qed.

(** ** Facts on traces *)

Section TraceFacts.

Lemma sleeps_of_app d t u : sleeps_of d (t ++ u) = (sleeps_of d t + sleeps_of d u)%nat.
Proof. unfold sleeps_of. now rewrite filter_app, length_app. Qed.

Lemma sleeps_of_cons d ev t :
  sleeps_of d (ev :: t)
  = ((match ev with ESleep d' => if Z.eqb d' d then 1 else 0 | _ => 0 end)
     + sleeps_of d t)%nat.
Proof.
  unfold sleeps_of. destruct ev; simpl; auto. now destruct (seconds =? d).
Qed.

Lemma keeps_pace_nil : keeps_pace [].
Proof. intros last. now exists last. Qed.

Lemma keeps_pace_app t u : keeps_pace t -> keeps_pace u -> keeps_pace (t ++ u).
Proof.
  intros Ht Hu last. rewrite fold_left_app.
  destruct (Ht last) as [l1 ->]. apply Hu.
Qed.

Lemma keeps_pace_cons ev t :
  (forall p df, ev <> EWriteCsv p df) -> keeps_pace t -> keeps_pace (ev :: t).
Proof.
  intros Hev Ht last. simpl.
  destruct ev; simpl; try apply Ht. now destruct (Hev path df).
Qed.

Lemma fetch_events_keep_pace f t : Forall (fetch_event f) t -> keeps_pace t.
Proof.
  induction 1 as [|ev t Hev _ IH]; [apply keeps_pace_nil|].
  apply keeps_pace_cons; auto. intros p df ->. exact Hev.
Qed.

Lemma fetch_events_no_pacing_wait f t :
  Forall (fetch_event f) t -> sleeps_of 2 t = O /\ sleeps_of 3 t = O.
Proof.
  induction 1 as [|ev t Hev _ [IH2 IH3]]; [now split|].
  unfold sleeps_of in *. destruct ev; simpl in *; auto.
  subst seconds. simpl. auto.
Qed.

(** A fetch that ended on a call of [f], the file written, its report line
    and the wait that suits [f]. *)
Lemma keeps_pace_step f t kw p df m d :
  Forall (fetch_event f) t ->
  pace_ok (Some f) d = true ->
  keeps_pace ((t ++ [ECall f kw]) ++ [EWriteCsv p df; EPrint m; ESleep d]).
Proof.
  intros Ht Hd last. rewrite !fold_left_app.
  destruct (fetch_events_keep_pace f t Ht last) as [l1 ->].
  cbn [fold_left pacing_step]. rewrite Hd. eauto.
Qed.

End TraceFacts.

(** ** What the parts of a run emit *)

Section Emits.

Context {World Response : Type}.
Variable invoke : callable -> kwargs -> World -> result Response * World.
Variable get_data_frames : Response -> list DataFrame.
Variable elapse : Z -> World -> World.

Lemma emits_weaken {A} (m : M World A) (P Q : result A -> list event -> Prop) :
  emits m P -> (forall r t, P r t -> Q r t) -> emits m Q.
Proof. intros Hm HPQ s. destruct (Hm s) as [t [Ht HP]]. eauto. Qed.

Lemma emits_ret {A} (a : A) (P : result A -> list event -> Prop) :
  P (Ok a) [] -> emits (World := World) (ret a) P.
Proof. intros HP s. exists []. simpl. now rewrite app_nil_r. Qed.

Lemma emits_raise {A} (e : exn) (P : result A -> list event -> Prop) :
  P (Raise e) [] -> emits (World := World) (raise e) P.
Proof. intros HP s. exists []. simpl. now rewrite app_nil_r. Qed.

Lemma emits_bind {A B} (m : M World A) (k : A -> M World B)
    (P : result A -> list event -> Prop) (R : result B -> list event -> Prop) :
  emits m P ->
  (forall e t, P (Raise e) t -> R (Raise e) t) ->
  (forall a t, P (Ok a) t -> emits (k a) (fun r u => R r (t ++ u)%list)) ->
  emits (bind m k) R.
Proof.
  intros Hm Hraise Hok s. unfold bind.
  destruct (Hm s) as [t [Ht HP]].
  destruct (m s) as [[a|e] s1]; cbn [fst snd] in *.
  - destruct (Hok a t HP s1) as [u [Hu HR]].
    exists (t ++ u)%list. split; auto. now rewrite Hu, Ht, app_assoc.
  - exists t. auto.
Qed.

(** An event emitted, then the rest. *)
Lemma emits_emit_then {B} (ev : event) (k : M World B)
    (R : result B -> list event -> Prop) :
  emits k (fun r u => R r (ev :: u)) -> emits (bind (emit ev) (fun _ => k)) R.
Proof.
  intros Hk s. unfold bind, emit.
  destruct (Hk (mkState (world s) (trace s ++ [ev]))) as [u [Hu HR]].
  exists (ev :: u). split; auto.
  rewrite Hu. cbn [trace]. now rewrite <- app_assoc.
Qed.

(** A wait of a non-negative length, then the rest. *)
Lemma emits_sleep_then {B} (d : Z) (k : M World B)
    (R : result B -> list event -> Prop) :
  0 <= d ->
  emits k (fun r u => R r (ESleep d :: u)) ->
  emits (bind (sleep elapse d) (fun _ => k)) R.
Proof.
  intros Hd Hk s. unfold bind, sleep.
  destruct (d <? 0) eqn:E; [apply Z.ltb_lt in E; lia|].
  destruct (Hk (mkState (elapse d (world s)) (trace s ++ [ESleep d]))) as [u [Hu HR]].
  exists (ESleep d :: u). split; auto.
  rewrite Hu. cbn [trace]. now rewrite <- app_assoc.
Qed.

Lemma emits_sleep (d : Z) (R : result unit -> list event -> Prop) :
  0 <= d -> R (Ok tt) [ESleep d] -> emits (sleep elapse d) R.
Proof.
  intros Hd HR s. unfold sleep.
  destruct (d <? 0) eqn:E; [apply Z.ltb_lt in E; lia|].
  exists [ESleep d]. auto.
Qed.

Lemma retry_loop_emits (f : callable) (kw : kwargs) (retries : Z) (attempts : list Z) :
  emits (retry_loop invoke elapse f kw retries 10 attempts) (fetched f kw).
Proof.
  induction attempts as [|attempt rest IH]; intros s.
  - exists []. simpl. rewrite app_nil_r. repeat split; auto. discriminate.
  - cbn [retry_loop]. unfold bind, try_except, call.
    destruct (invoke f kw (world s)) as [[v|e] w].
    + exists [ECall f kw]. cbn. repeat split; auto.
      * constructor; [reflexivity|constructor].
      * intros _. exists []. auto.
    + destruct (catches transient_classes e).
      * unfold print, emit, sleep, ret. cbn [Z.ltb Z.compare world trace].
        match goal with
        | |- context [retry_loop _ _ _ _ _ _ _ ?s1] => destruct (IH s1) as [u [Hu [Hev Hok]]]
        end.
        exists ([ECall f kw; EPrint (retry_line e attempt retries); ESleep 10] ++ u)%list.
        split; [|split].
        -- rewrite Hu. cbn [trace]. unfold retry_line. now rewrite <- !app_assoc.
        -- repeat (constructor; [reflexivity|]). exact Hev.
        -- intros H. destruct (Hok H) as [t' [-> Ht']].
           exists ([ECall f kw; EPrint (retry_line e attempt retries); ESleep 10] ++ t')%list.
           split; [now rewrite <- app_assoc|].
           repeat (constructor; [reflexivity|]). exact Ht'.
      * exists [ECall f kw]. cbn. repeat split; auto.
        -- constructor; [reflexivity|constructor].
        -- discriminate.
Qed.

Lemma retry_request_emits (f : callable) (kw : kwargs) :
  emits (retry_request invoke elapse f kw 5 10) (fetched f kw).
Proof. apply retry_loop_emits. Qed.

End Emits.

Section Orchestration.

Context {World Response : Type}.
Variable invoke : callable -> kwargs -> World -> result Response * World.
Variable get_data_frames : Response -> list DataFrame.
Variable elapse : Z -> World -> World.

Lemma keeps_pace_fetch_step f t kw p df m d rest :
  Forall (fetch_event f) t ->
  pace_ok (Some f) d = true ->
  keeps_pace rest ->
  keeps_pace ((t ++ [ECall f kw]) ++ EWriteCsv p df :: EPrint m :: ESleep d :: rest).
Proof.
  intros Ht Hd Hrest.
  change (EWriteCsv p df :: EPrint m :: ESleep d :: rest)
    with ([EWriteCsv p df; EPrint m; ESleep d] ++ rest)%list.
  rewrite app_assoc. apply keeps_pace_app; auto. now apply keeps_pace_step.
Qed.

(** A line printed, the wrapper run on [f], the first frame taken. *)
Lemma fetch_emits (line : string) (f : callable) (kw : kwargs) :
  emits (bind (print line)
           (fun _ => bind (retry_request invoke elapse f kw 5 10)
                       (first_frame get_data_frames)))
        (fetched f kw).
Proof.
  unfold print. apply emits_emit_then.
  apply (emits_bind _ _ (fetched f kw)); [apply retry_request_emits| |].
  - intros e t [Hev _]. split; [now constructor|discriminate].
  - intros a t [Hev Hok]. destruct (Hok eq_refl) as [t' [-> Ht']].
    assert (fetched f kw (Ok (A := DataFrame) (mkDF [] []))
              (EPrint line :: (t' ++ [ECall f kw]) ++ [])) as Hdone.
    { rewrite app_nil_r. split; [now constructor|].
      intros _. exists (EPrint line :: t'). split; [reflexivity|now constructor]. }
    unfold first_frame. destruct (get_data_frames a) as [|df frames'].
    + apply emits_raise. destruct Hdone as [H _]. split; [exact H|discriminate].
    + apply emits_ret. exact Hdone.
Qed.

Lemma get_team_game_logs_emits team_id season :
  emits (get_team_game_logs invoke get_data_frames elapse team_id season)
        (fetched TeamGameLog [("team_id", VInt team_id); ("season", VStr season)]).
Proof. apply fetch_emits. Qed.

Lemma get_team_roster_emits team_id season :
  emits (get_team_roster invoke get_data_frames elapse team_id season)
        (fetched CommonTeamRoster [("team_id", VInt team_id); ("season", VStr season)]).
Proof. apply fetch_emits. Qed.

Lemma get_player_game_logs_emits player_id season :
  emits (get_player_game_logs invoke get_data_frames elapse player_id season)
        (fetched PlayerGameLog [("player_id", player_id); ("season", VStr season)]).
Proof. apply fetch_emits. Qed.

(** The roster filter prints at most its warning, and its outcome does not
    depend on the state it is run from. *)
Lemma get_player_ids_emits (roster_df : DataFrame) (players : list string) :
  emits (World := World) (get_player_ids roster_df players)
    (fun r t => (t = [] \/ exists line, t = [EPrint line])
                /\ forall s : state World, fst (get_player_ids roster_df players s) = r).
Proof.
  intros s. unfold get_player_ids, bind, lift, print, emit, ret.
  destruct (get_column roster_df "PLAYER") as [col|e].
  - destruct (df_empty _).
    + exists [EPrint "Nenhum jogador encontrado no roster!"]. cbn.
      repeat split; eauto.
    + destruct (get_column _ "PLAYER") as [names|e];
        [destruct (get_column _ "PLAYER_ID") as [ids|e]|];
        exists []; cbn; rewrite app_nil_r; repeat split; auto.
  - exists []. cbn. rewrite app_nil_r. repeat split; auto.
Qed.

Lemma process_player_emits season safe_season players_dir item :
  emits (process_player invoke get_data_frames elapse season safe_season players_dir item)
        (players_post 1).
Proof.
  destruct item as [player player_id]. unfold process_player.
  eapply emits_bind; [apply get_player_game_logs_emits| |].
  - intros e t [Hev _]. destruct (fetch_events_no_pacing_wait _ _ Hev) as [H2 H3].
    split; [now apply fetch_events_keep_pace with PlayerGameLog|]. split; [exact H2|discriminate].
  - intros df t [Hev Hok]. destruct (Hok eq_refl) as [t' [-> Ht']].
    destruct (fetch_events_no_pacing_wait _ _ Hev) as [H2 H3].
    destruct player as [name| |].
    + unfold to_csv, print. do 2 apply emits_emit_then. apply emits_sleep; [lia|].
      split; [|split].
      * apply keeps_pace_fetch_step; auto. apply keeps_pace_nil.
      * rewrite sleeps_of_app, H2. reflexivity.
      * intros _. rewrite sleeps_of_app, H3. reflexivity.
    + apply emits_raise. rewrite app_nil_r.
      split; [now apply fetch_events_keep_pace with PlayerGameLog|]. split; [exact H2|discriminate].
    + apply emits_raise. rewrite app_nil_r.
      split; [now apply fetch_events_keep_pace with PlayerGameLog|]. split; [exact H2|discriminate].
Qed.

Lemma players_loop_emits season safe_season players_dir (player_ids : dict) :
  emits (for_each player_ids
           (process_player invoke get_data_frames elapse season safe_season players_dir))
        (players_post (length player_ids)).
Proof.
  induction player_ids as [|item items IH]; cbn [for_each length].
  - apply emits_ret. split; [apply keeps_pace_nil|]. split; reflexivity.
  - eapply emits_bind; [apply process_player_emits| |].
    + intros e t [Hp [H2 _]]. split; [exact Hp|]. split; [exact H2|discriminate].
    + intros [] t [Hp [H2 H3]]. eapply emits_weaken; [apply IH|].
      intros r u [Hp' [H2' H3']]. split; [now apply keeps_pace_app|]. split.
      * now rewrite sleeps_of_app, H2, H2'.
      * intros Hr. now rewrite sleeps_of_app, H3, H3'.
Qed.

Ltac pace :=
  cbv beta;
  repeat first
    [ apply keeps_pace_nil
    | assumption
    | apply keeps_pace_cons; [discriminate|]
    | apply keeps_pace_fetch_step; [assumption|reflexivity|]
    | apply keeps_pace_app
    | eapply fetch_events_keep_pace; eassumption ].

Ltac split_waits :=
  cbv beta; repeat first [rewrite sleeps_of_cons | rewrite sleeps_of_app].

Lemma process_season_emits team_id players season :
  emits (process_season invoke get_data_frames elapse team_id players season)
        (season_post (World := World) players).
Proof.
  unfold process_season, makedirs. do 2 apply emits_emit_then.
  unfold print at 1. apply emits_emit_then.
  eapply emits_bind; [apply get_team_game_logs_emits| |].
  { intros e t [Hev _]. split; [pace|discriminate]. }
  intros team_games t1 [_ Hok1]. destruct (Hok1 eq_refl) as [t1' [-> Ht1]].
  destruct (fetch_events_no_pacing_wait _ _ Ht1) as [H12 H13].
  unfold to_csv at 1, print at 1. do 2 apply emits_emit_then.
  apply emits_sleep_then; [lia|].
  eapply emits_bind; [apply get_team_roster_emits| |].
  { intros e t [Hev _]. split; [pace|discriminate]. }
  intros roster_df t2 [_ Hok2]. destruct (Hok2 eq_refl) as [t2' [-> Ht2]].
  destruct (fetch_events_no_pacing_wait _ _ Ht2) as [H22 H23].
  unfold to_csv at 1, print at 1. do 2 apply emits_emit_then.
  apply emits_sleep_then; [lia|].
  eapply emits_bind; [apply get_player_ids_emits| |].
  { intros e t3 [Ht3 _]. split; [|discriminate].
    destruct Ht3 as [->|[line ->]]; pace. }
  intros player_ids t3 [Ht3 Hids].
  eapply emits_weaken; [apply players_loop_emits|].
  intros r u [Hp [Hu2 Hu3]]. split.
  { destruct Ht3 as [->|[line ->]]; pace. }
  intros Hr. specialize (Hu3 Hr). split.
  - destruct Ht3 as [->|[line ->]]; split_waits; rewrite H12, H22, Hu2; reflexivity.
  - exists roster_df, player_ids. split; [exact Hids|].
    destruct Ht3 as [->|[line ->]]; split_waits; rewrite H13, H23, Hu3; reflexivity.
Qed.

Lemma seasons_loop_emits team_id players seasons :
  emits (for_each seasons
           (process_season invoke get_data_frames elapse team_id players))
        (fun _ t => keeps_pace t).
Proof.
  induction seasons as [|season seasons' IH]; cbn [for_each].
  - apply emits_ret. apply keeps_pace_nil.
  - eapply emits_bind; [apply process_season_emits| |].
    + intros e t [Hp _]. exact Hp.
    + intros [] t [Hp _]. eapply emits_weaken; [apply IH|].
      intros r u Hu. now apply keeps_pace_app.
Qed.

Lemma fetch_standings_event ev :
  fetch_event LeagueStandings ev -> standings_event ev.
Proof. destruct ev; simpl; auto. Qed.

Lemma listar_times_por_conferencia_emits output_dir :
  emits (listar_times_por_conferencia invoke get_data_frames elapse output_dir)
        (fun _ t => Forall standings_event t).
Proof.
  unfold listar_times_por_conferencia.
  eapply emits_bind; [apply (retry_request_emits invoke elapse LeagueStandings [])| |].
  { intros e t [Hev _]. eapply Forall_impl; [apply fetch_standings_event|exact Hev]. }
  intros response t [Hev _].
  assert (Forall standings_event t) as Ht
    by (eapply Forall_impl; [apply fetch_standings_event|exact Hev]).
  unfold first_frame. destruct (get_data_frames response) as [|df_standings others].
  { apply emits_raise. now rewrite app_nil_r. }
  unfold ret at 1. unfold bind at 1.
  destruct (times_por_conferencia df_standings) as [df_times|e].
  - unfold lift, bind at 1, makedirs, to_csv, print.
    do 3 apply emits_emit_then. apply emits_ret.
    apply Forall_app. split; auto. repeat constructor.
  - unfold lift, bind at 1. apply emits_raise. now rewrite app_nil_r.
Qed.

Lemma obter_classificacao_atual_emits output_dir :
  emits (obter_classificacao_atual invoke get_data_frames elapse output_dir)
        (fun _ t => Forall standings_event t).
Proof.
  unfold obter_classificacao_atual.
  eapply emits_bind; [apply (retry_request_emits invoke elapse LeagueStandings [])| |].
  { intros e t [Hev _]. eapply Forall_impl; [apply fetch_standings_event|exact Hev]. }
  intros response t [Hev _].
  assert (Forall standings_event t) as Ht
    by (eapply Forall_impl; [apply fetch_standings_event|exact Hev]).
  unfold first_frame. destruct (get_data_frames response) as [|df_standings others].
  { apply emits_raise. now rewrite app_nil_r. }
  unfold ret at 1. unfold bind at 1.
  apply emits_emit_then. unfold bind at 1.
  destruct (classificacao_por_conferencia df_standings) as [df_classificacao|e].
  - unfold lift, makedirs, to_csv, print.
    do 3 apply emits_emit_then. apply emits_ret.
    apply Forall_app. split; auto. repeat constructor.
  - unfold lift. apply emits_raise.
    apply Forall_app. split; auto. repeat constructor.
Qed.

Lemma standings_phase_emits :
  emits (standings_phase invoke get_data_frames elapse)
        (fun _ t => Forall standings_event t).
Proof.
  unfold standings_phase, print. apply emits_emit_then.
  eapply emits_bind; [apply listar_times_por_conferencia_emits| |].
  { intros e t Ht. now constructor. }
  intros df_times t Ht. apply emits_emit_then.
  eapply emits_bind; [apply obter_classificacao_atual_emits| |].
  { intros e u Hu. constructor; [exact I|]. apply Forall_app. split; auto.
    now constructor. }
  intros df_classificacao u Hu. apply emits_ret.
  constructor; [exact I|]. apply Forall_app. split; auto.
  constructor; [exact I|]. now rewrite app_nil_r.
Qed.

Lemma standings_events_no_pacing_wait t :
  Forall standings_event t -> sleeps_of 2 t = O /\ sleeps_of 3 t = O.
Proof.
  induction 1 as [|ev t Hev _ [IH2 IH3]]; [now split|].
  rewrite !sleeps_of_cons, IH2, IH3. destruct ev; simpl in *; auto.
  subst seconds. auto.
Qed.

Lemma keeps_pace_paced t : keeps_pace t -> paced t = true.
Proof. intros H. unfold paced. now destruct (H None) as [last' ->]. Qed.

(** C1.  After the loop over the seasons the run fetches the standings twice,
    once inside each conference function and each time through the retry
    wrapper: the listing is built from the frame of the first fetch and
    written, then the classification is built from the frame of the second
    fetch and written. *)
Theorem standings_fetched_by_each_function (team_id : Z) (seasons players : list string)
    (s0 s s1 s2 : state World) (r1 r2 : Response)
    (df1 df2 df_times df_classificacao : DataFrame) (o1 o2 : list DataFrame) :
  for_each seasons (process_season invoke get_data_frames elapse team_id players) s0
  = (Ok tt, s) ->
  retry_request invoke elapse LeagueStandings [] 5 10
    (mkState (world s)
       (trace s ++ [EPrint (nl ++ "=== Listando Times por Conferência (RF1) ===")]))
  = (Ok r1, s1) ->
  get_data_frames r1 = df1 :: o1 ->
  times_por_conferencia df1 = Ok df_times ->
  retry_request invoke elapse LeagueStandings [] 5 10
    (mkState (world s1)
       (trace s1
        ++ [EMakedirs "data/raw";
            EWriteCsv "data/raw/times_por_conferencia.csv" df_times;
            EPrint "Lista de times por conferência salva em: data/raw/times_por_conferencia.csv";
            EPrint (nl ++ "=== Obtendo Classificação Atual dos Times (RF2) ===")]))
  = (Ok r2, s2) ->
  get_data_frames r2 = df2 :: o2 ->
  classificacao_por_conferencia df2 = Ok df_classificacao ->
  run invoke get_data_frames elapse team_id seasons players s0
  = (Ok tt,
     mkState (world s2)
       (trace s2
        ++ [EPrintColumns "Colunas disponíveis em df_standings:" (df_columns df2);
            EMakedirs "data/raw";
            EWriteCsv "data/raw/classificacao_por_conferencia.csv" df_classificacao;
            EPrint "Classificação atual por conferência salva em: data/raw/classificacao_por_conferencia.csv"]))
  /\ (exists f1,
         trace s1
         = ((trace s ++ [EPrint (nl ++ "=== Listando Times por Conferência (RF1) ===")])
            ++ f1 ++ [ECall LeagueStandings []])%list)
  /\ (exists f2,
         trace s2
         = ((trace s1
             ++ [EMakedirs "data/raw";
                 EWriteCsv "data/raw/times_por_conferencia.csv" df_times;
                 EPrint "Lista de times por conferência salva em: data/raw/times_por_conferencia.csv";
                 EPrint (nl ++ "=== Obtendo Classificação Atual dos Times (RF2) ===")])
            ++ f2 ++ [ECall LeagueStandings []])%list).
Proof.
  intros Hloop Hf1 Hd1 Ht1 Hf2 Hd2 Ht2. split; [|split].
  - unfold run, standings_phase, listar_times_por_conferencia,
      obter_classificacao_atual, bind.
    rewrite Hloop. unfold print at 1, emit at 1. rewrite Hf1.
    unfold first_frame at 1. rewrite Hd1. unfold ret at 1, lift at 1. rewrite Ht1.
    unfold makedirs at 1, to_csv at 1, print at 1, print at 1, ret at 1, emit.
    cbn [world trace path_join ends_with_slash Ascii.eqb Bool.eqb append].
    rewrite <- !app_assoc. cbn [app]. rewrite Hf2.
    unfold first_frame. rewrite Hd2. unfold ret at 1, lift. rewrite Ht2.
    unfold makedirs, to_csv, print, emit, ret.
    cbn [world trace path_join ends_with_slash Ascii.eqb Bool.eqb append].
    rewrite <- !app_assoc. reflexivity.
  - match type of Hf1 with _ _ _ _ _ _ _ ?st = _ =>
      destruct (retry_request_emits invoke elapse LeagueStandings [] st)
        as [t [Ht [_ Hok]]] end.
    rewrite Hf1 in Ht, Hok. cbn [fst snd] in *.
    destruct (Hok eq_refl) as [f1 [-> _]]. exists f1. exact Ht.
  - match type of Hf2 with _ _ _ _ _ _ _ ?st = _ =>
      destruct (retry_request_emits invoke elapse LeagueStandings [] st)
        as [t [Ht [_ Hok]]] end.
    rewrite Hf2 in Ht, Hok. cbn [fst snd] in *.
    destruct (Hok eq_refl) as [f2 [-> _]]. exists f2. exact Ht.
Qed.

End Orchestration.

(** ** The properties at recorded sessions *)

Lemma distinct_NoDup l : distinct l = true -> NoDup l.
Proof.
  induction l as [|c l IH]; simpl; intros H; constructor;
    apply andb_prop in H; destruct H as [Hc Hl]; auto.
  intros Hin. apply negb_true_iff in Hc.
  assert (existsb (String.eqb c) l = true) as E
    by (apply existsb_exists; exists c; split; auto; apply String.eqb_refl).
  congruence.
Qed.

Lemma distinct_values_NoDup (l : list value) :
  distinct_values l = true -> NoDup l.
Proof.
  induction l as [|v l IH]; simpl; intros H; constructor;
    apply andb_prop in H; destruct H as [Hv Hl]; auto.
  intros Hin. apply negb_true_iff in Hv.
  apply existsb_value_eqb in Hin. congruence.
Qed.

Lemma wf_dfb_correct df : wf_dfb df = true -> wf_df df.
Proof.
  unfold wf_dfb, wf_df. intros H. apply andb_prop in H. destruct H as [Hc Hr].
  split; [now apply distinct_NoDup|].
  apply Forall_forall. intros r Hin.
  rewrite forallb_forall in Hr. now apply Nat.eqb_eq, Hr.
Qed.

Lemma retry_request_exhausted_at_two_failures :
  exists w'' t,
    retry_request replay no_clock TeamGameLog [] 2 10
      (start [Raise connection_refused; Raise read_timed_out; Ok [games]])
    = (Raise (mkExn Exception_ "Falha após 2 tentativas."), mkState w'' t)
    /\ t = [ECall TeamGameLog [];
            EPrint "Erro de conexão: Connection refused. Tentativa 1 de 2...";
            ESleep 10;
            ECall TeamGameLog [];
            EPrint "Erro de conexão: Read timed out.. Tentativa 2 de 2...";
            ESleep 10]
    /\ Z.of_nat (calls t) = 2
    /\ Z.of_nat (sleeps t) = 2.
Proof.
  apply (retry_request_exhausted replay no_clock TeamGameLog [] 2 10
           [connection_refused; read_timed_out]
           (start [Raise connection_refused; Raise read_timed_out; Ok [games]])
           [Ok [games]]).
  - lia.
  - lia.
  - apply fw_cons with (w1 := [Raise read_timed_out; Ok [games]]);
      [reflexivity|reflexivity|].
    apply fw_cons with (w1 := [Ok [games]]); [reflexivity|reflexivity|].
    apply fw_nil.
  - simpl. lia.
Defined.

Lemma retry_request_propagates_at_bad_payload :
  retry_request replay no_clock TeamGameLog [] 5 10
    (start [Raise connection_refused; Raise bad_payload; Ok [games]])
  = (Raise bad_payload,
     mkState [Ok [games]]
       [ECall TeamGameLog [];
        EPrint "Erro de conexão: Connection refused. Tentativa 1 de 5...";
        ESleep 10;
        ECall TeamGameLog []])
  /\ calls [ECall TeamGameLog [];
            EPrint "Erro de conexão: Connection refused. Tentativa 1 de 5...";
            ESleep 10;
            ECall TeamGameLog []] = 2%nat
  /\ sleeps [ECall TeamGameLog [];
             EPrint "Erro de conexão: Connection refused. Tentativa 1 de 5...";
             ESleep 10;
             ECall TeamGameLog []] = 1%nat.
Proof.
  apply (retry_request_propagates replay no_clock TeamGameLog [] 5 10
           [connection_refused] bad_payload
           (start [Raise connection_refused; Raise bad_payload; Ok [games]])
           [Raise bad_payload; Ok [games]] [Ok [games]]).
  - apply fw_cons with (w1 := [Raise bad_payload; Ok [games]]);
      [reflexivity|reflexivity|apply fw_nil].
  - simpl. lia.
  - right. lia.
  - reflexivity.
  - reflexivity.
Defined.

Lemma retry_request_returns_at_third_attempt :
  retry_request replay no_clock TeamGameLog [] 5 10
    (start [Raise connection_refused; Raise read_timed_out; Ok [games]])
  = (Ok [games],
     mkState []
       [ECall TeamGameLog [];
        EPrint "Erro de conexão: Connection refused. Tentativa 1 de 5...";
        ESleep 10;
        ECall TeamGameLog [];
        EPrint "Erro de conexão: Read timed out.. Tentativa 2 de 5...";
        ESleep 10;
        ECall TeamGameLog []])
  /\ calls [ECall TeamGameLog [];
            EPrint "Erro de conexão: Connection refused. Tentativa 1 de 5...";
            ESleep 10;
            ECall TeamGameLog [];
            EPrint "Erro de conexão: Read timed out.. Tentativa 2 de 5...";
            ESleep 10;
            ECall TeamGameLog []] = 3%nat
  /\ sleeps [ECall TeamGameLog [];
             EPrint "Erro de conexão: Connection refused. Tentativa 1 de 5...";
             ESleep 10;
             ECall TeamGameLog [];
             EPrint "Erro de conexão: Read timed out.. Tentativa 2 de 5...";
             ESleep 10;
             ECall TeamGameLog []] = 2%nat.
Proof.
  apply (retry_request_returns replay no_clock TeamGameLog [] 5 10
           [connection_refused; read_timed_out] [games]
           (start [Raise connection_refused; Raise read_timed_out; Ok [games]])
           [Ok [games]] []).
  - apply fw_cons with (w1 := [Raise read_timed_out; Ok [games]]);
      [reflexivity|reflexivity|].
    apply fw_cons with (w1 := [Ok [games]]); [reflexivity|reflexivity|].
    apply fw_nil.
  - simpl. lia.
  - right. lia.
  - reflexivity.
Defined.

Lemma conference_column_absent_at_session :
  listar_times_por_conferencia replay frames no_clock "data/raw"
    (start [Ok [standings_without_conference]])
  = (Raise (mkExn KeyError "Conference"), mkState [] [ECall LeagueStandings []])
  /\ obter_classificacao_atual replay frames no_clock "data/raw"
       (start [Ok [standings_without_conference]])
     = (Raise (mkExn KeyError
                 "A coluna 'Conference' não está disponível no DataFrame retornado."),
        mkState []
          [ECall LeagueStandings [];
           EPrintColumns "Colunas disponíveis em df_standings:"
             ["TeamID"; "TeamName"; "WinPCT"]]).
Proof.
  apply (conference_column_absent replay frames no_clock "data/raw"
           (start [Ok [standings_without_conference]])
           (mkState [] [ECall LeagueStandings []])
           [standings_without_conference] standings_without_conference []).
  - reflexivity.
  - reflexivity.
  - reflexivity.
Defined.

Lemma get_player_ids_spec_at_roster :
  exists (d : dict) (t : list event),
    get_player_ids roster ["Ja Morant"; "Desmond Bane"; "Jaren Jackson Jr."]
      (start (@nil (result (list DataFrame))))
    = (Ok d, mkState [] t)
    /\ d = [(VStr "Ja Morant", VInt 1); (VStr "Desmond Bane", VInt 2);
            (VStr "Jaren Jackson Jr.", VInt 3)]
    /\ t = []
    /\ (length d <= 3)%nat.
Proof.
  destruct (get_player_ids_spec roster
              ["Ja Morant"; "Desmond Bane"; "Jaren Jackson Jr."]
              (start (@nil (result (list DataFrame)))))
    as [d [t [Hrun [_ [_ [_ [_ [Ht Hlen]]]]]]]].
  - apply wf_dfb_correct. reflexivity.
  - reflexivity.
  - reflexivity.
  - exists d, t. split; [exact Hrun|].
    assert (t = []) as Htn by (apply Ht; discriminate).
    split; [|split; [exact Htn|exact Hlen]].
    subst t. vm_compute in Hrun. congruence.
Defined.

Lemma conference_tables_spec_at_standings :
  (exists out,
      classificacao_por_conferencia standings = Ok out
      /\ df_columns out = ["TeamName"; "Conference"; "WinPCT"; "Conferencia"]
      /\ df_rows out
         = [[VStr "Celtics"; VStr "East"; VFloat "0.78"; VStr "Leste"];
            [VStr "Grizzlies"; VStr "West"; VFloat "0.329"; VStr "Oeste"];
            [VStr "Lakers"; VStr "West"; VFloat "0.573"; VStr "Oeste"]]
      /\ (length (df_rows out) <= 3)%nat)
  /\ (exists out,
        times_por_conferencia standings = Ok out
        /\ df_columns out = ["Nome"; "ID"; "Conferencia"]
        /\ df_rows out
           = [[VStr "Celtics"; VInt 1610612738; VStr "Leste"];
              [VStr "Grizzlies"; VInt 1610612763; VStr "Oeste"];
              [VStr "Lakers"; VInt 1610612747; VStr "Oeste"]]
        /\ (length (df_rows out) <= 3)%nat).
Proof.
  destruct (conference_tables_spec standings) as [Hc [Hl _]].
  - apply wf_dfb_correct. reflexivity.
  - reflexivity.
  - split; [exact Hc|exact (Hl eq_refl eq_refl)].
Defined.

(** C1, at a recorded session: the run as written calls the standings
    endpoint twice, and the classification it writes is built from the second
    answer, which the listing never saw. *)
Lemma main_fetches_standings_twice :
  fst (main replay frames no_clock (start full_session)) = Ok tt
  /\ standings_calls (trace (snd (main replay frames no_clock (start full_session))))
     <> 1%nat
  /\ In (EWriteCsv "data/raw/classificacao_por_conferencia.csv"
           (mkDF ["TeamName"; "Conference"; "WinPCT"; "Conferencia"]
                 [[VStr "Celtics"; VStr "East"; VFloat "0.78"; VStr "Leste"];
                  [VStr "Grizzlies"; VStr "West"; VFloat "0.337"; VStr "Oeste"];
                  [VStr "Lakers"; VStr "West"; VFloat "0.566"; VStr "Oeste"]]))
        (trace (snd (main replay frames no_clock (start full_session)))).
Proof.
  split; [vm_compute; reflexivity|]. split.
  - vm_compute. discriminate.
  - vm_compute. do 65 right. left. reflexivity.
Qed.

(** C9, at a recorded session: in a run that completes, the two standings
    files are written without a wait after them, so the whole trace does not
    keep the pacing discipline. *)
Lemma main_standings_steps_unpaced :
  fst (main replay frames no_clock (start full_session)) = Ok tt
  /\ paced (trace (snd (main replay frames no_clock (start full_session)))) = false.
Proof. split; vm_compute; reflexivity. Qed.

Lemma standings_fetched_by_each_function_at_session :
  exists final : state session,
    run replay frames no_clock 1610612763 ["2023-24"; "2024-25"]
        ["Ja Morant"; "Desmond Bane"; "Jaren Jackson Jr."] (start full_session)
    = (Ok tt, final)
    /\ standings_calls (trace final) = 2%nat.
Proof.
  edestruct (standings_fetched_by_each_function replay frames no_clock 1610612763
               ["2023-24"; "2024-25"]
               ["Ja Morant"; "Desmond Bane"; "Jaren Jackson Jr."]
               (start full_session)) as [Hrun _].
  - vm_compute. reflexivity.
  - vm_compute. reflexivity.
  - vm_compute. reflexivity.
  - vm_compute. reflexivity.
  - vm_compute. reflexivity.
  - vm_compute. reflexivity.
  - vm_compute. reflexivity.
  - eexists. split; [exact Hrun|]. vm_compute. reflexivity.
Defined.

(** * Further properties *)

(** ** The retry wrapper in every world *)

Section RetryBudget.

Context {World Response : Type}.
Variable invoke : callable -> kwargs -> World -> result Response * World.
Variable elapse : Z -> World -> World.
Variables (func : callable) (kw : kwargs) (retries delay : Z).

Lemma waited_app t u : waited (t ++ u) = waited t + waited u.
Proof.
  unfold waited. induction t as [|ev t IH]; simpl; auto.
  destruct ev; rewrite IH; lia.
Qed.

Lemma retry_loop_never_transient attempts :
  forall (s s' : state World) (e : exn),
    retry_loop invoke elapse func kw retries delay attempts s = (Raise e, s') ->
    is_transient e = false.
Proof.
  induction attempts as [|attempt rest IH]; intros s s' e.
  - cbn. intros H. injection H as <- _. reflexivity.
  - cbn [retry_loop]. unfold bind, try_except, call.
    destruct (invoke func kw (world s)) as [[v|e0] w].
    + unfold ret. discriminate.
    + fold (is_transient e0). destruct (is_transient e0) eqn:Htr.
      * unfold print, emit, sleep, ret. destruct (delay <? 0).
        -- cbn. intros H. injection H as <- _. reflexivity.
        -- apply IH.
      * intros H. injection H as <- _. exact Htr.
Qed.

Lemma retry_loop_budget attempts :
  forall s : state World,
  exists t,
    trace (snd (retry_loop invoke elapse func kw retries delay attempts s))
    = (trace s ++ t)%list
    /\ Forall (retry_event func kw delay) t
    /\ (calls t <= length attempts)%nat
    /\ (sleeps t <= calls t)%nat
    /\ waited t = delay * Z.of_nat (sleeps t)
    /\ (attempts <> [] -> 1 <= calls t)%nat.
Proof.
  induction attempts as [|attempt rest IH]; intros s.
  - exists []. cbn. rewrite app_nil_r. repeat split; auto; try lia. congruence.
  - cbn [retry_loop]. unfold bind, try_except, call.
    destruct (invoke func kw (world s)) as [[v|e0] w].
    + exists [ECall func kw]. cbn. repeat split; auto; try lia.
      repeat constructor.
    + destruct (catches transient_classes e0).
      * unfold print, emit, sleep, ret. destruct (delay <? 0).
        -- exists [ECall func kw; EPrint (retry_line e0 attempt retries)].
           cbn. rewrite <- app_assoc. repeat split; auto; try lia.
           repeat constructor.
        -- cbn [world trace].
           match goal with
           | |- context [retry_loop _ _ _ _ _ _ _ ?s1] =>
               destruct (IH s1) as [u [Hu [Hev [Hc [Hs [Hw _]]]]]]
           end.
           exists ([ECall func kw; EPrint (retry_line e0 attempt retries); ESleep delay]
                   ++ u)%list.
           rewrite Hu. cbn [trace]. rewrite <- !app_assoc.
           rewrite calls_app, sleeps_app, waited_app, Hw.
           repeat split; auto.
           ++ repeat (constructor; [cbn; auto|]). exact Hev.
           ++ cbn. lia.
           ++ cbn. lia.
           ++ cbn. lia.
           ++ cbn. lia.
      * exists [ECall func kw]. cbn. repeat split; auto; try lia.
        repeat constructor.
Qed.

(** X1.  Whatever the operation does, an error that leaves the wrapper is
    never one of the caught classes: a transient failure is retried or turned
    into the exhaustion error, it does not escape. *)
Theorem retry_request_never_transient (s s' : state World) (e : exn) :
  retry_request invoke elapse func kw retries delay s = (Raise e, s') ->
  is_transient e = false.
Proof. apply retry_loop_never_transient. Qed.


(** X3.  With [retries] zero or negative the operation is never invoked: the
    wrapper raises its exhaustion error at once, with the number it was
    given in the message, and leaves the state untouched. *)
Theorem retry_request_without_attempts (s : state World) :
  retries <= 0 ->
  retry_request invoke elapse func kw retries delay s
  = (Raise (mkExn Exception_ ("Falha após " ++ str_Z retries ++ " tentativas.")), s).
Proof.
  intros H. unfold retry_request, range.
  replace (Z.to_nat retries) with O by lia. reflexivity.
Qed.

(** X4.  With a negative [delay] nothing is retried: the first caught failure
    is reported and then [time.sleep] refuses the negative length, so the
    wrapper raises [ValueError] after a single call. *)
Theorem retry_request_negative_delay (s : state World) (e : exn) (w1 : World) :
  delay < 0 ->
  0 < retries ->
  invoke func kw (world s) = (Raise e, w1) ->
  is_transient e = true ->
  retry_request invoke elapse func kw retries delay s
  = (Raise (mkExn ValueError "sleep length must be non-negative"),
     mkState w1 (trace s ++ [ECall func kw; EPrint (retry_line e 0 retries)])).
Proof.
  intros Hd Hr Hinv Htr. unfold retry_request.
  destruct (range_after retries O) as [rest Hrange]; [lia|].
  rewrite Hrange. cbn [map seq app retry_loop Z.of_nat].
  unfold bind, try_except, call. rewrite Hinv.
  fold (is_transient e). rewrite Htr.
  unfold print, emit, sleep, raise.
  destruct (delay <? 0) eqn:E; [|apply Z.ltb_ge in E; lia].
  cbn [world trace]. unfold retry_line. now rewrite <- app_assoc.
Qed.

End RetryBudget.

(** ** The fetchers *)

Section FetcherProperties.

Context {World Response : Type}.
Variable invoke : callable -> kwargs -> World -> result Response * World.
Variable get_data_frames : Response -> list DataFrame.
Variable elapse : Z -> World -> World.

Lemma first_frame_silent (response : Response) (s : state World) :
  snd (first_frame get_data_frames response s) = s.
Proof. unfold first_frame. now destruct (get_data_frames response). Qed.

(** A line printed, the wrapper run with its defaults, the first frame taken:
    the line, then between one and five calls of the endpoint. *)
Lemma fetch_budget (line : string) (f : callable) (kw : kwargs) (s : state World) :
  exists t,
    trace (snd (bind (print line)
                  (fun _ => bind (retry_request invoke elapse f kw 5 10)
                              (first_frame get_data_frames)) s))
    = (trace s ++ EPrint line :: t)%list
    /\ Forall (retry_event f kw 10) t
    /\ (1 <= calls t <= 5)%nat.
Proof.
  unfold bind at 1, print, emit.
  set (s0 := mkState (world s) (trace s ++ [EPrint line])).
  destruct (retry_loop_budget invoke elapse f kw 5 10 (range 5) s0)
    as [t [Ht [Hev [Hc [_ [_ Hone]]]]]].
  exists t. split; [|split; [exact Hev|]].
  - unfold bind. fold (retry_request invoke elapse f kw 5 10 s0) in Ht.
    destruct (retry_request invoke elapse f kw 5 10 s0) as [[response|e] s1];
      cbn [snd] in *.
    + rewrite first_frame_silent, Ht. unfold s0. cbn [trace].
      now rewrite <- app_assoc.
    + rewrite Ht. unfold s0. cbn [trace]. now rewrite <- app_assoc.
  - split; [apply Hone; discriminate|exact Hc].
Qed.

(** A response without any table, answered to the first call. *)
Lemma fetch_no_table (line : string) (f : callable) (kw : kwargs) (s : state World)
    (response : Response) (w1 : World) :
  invoke f kw (world s) = (Ok response, w1) ->
  get_data_frames response = [] ->
  bind (print line)
    (fun _ => bind (retry_request invoke elapse f kw 5 10)
                (first_frame get_data_frames)) s
  = (Raise (mkExn IndexError "list index out of range"),
     mkState w1 (trace s ++ [EPrint line; ECall f kw])).
Proof.
  intros Hinv Hnone. unfold retry_request.
  change (range 5) with [0; 1; 2; 3; 4]. cbn [retry_loop].
  unfold bind, print, emit, try_except, call. cbn [world trace]. rewrite Hinv.
  unfold ret, first_frame. rewrite Hnone. unfold raise.
  now rewrite <- app_assoc.
Qed.

(** X5.  Each of the three fetchers prints its line first and then makes
    between one and five calls, all of its own endpoint with the arguments it
    was given, interleaved only with retry reports and 10-second waits. *)
Theorem fetchers_budget (team_id : Z) (player_id : value) (season : string)
    (s : state World) :
  (exists t,
      trace (snd (get_team_game_logs invoke get_data_frames elapse team_id season s))
      = (trace s
         ++ EPrint ("Coletando log de jogos para o time " ++ str_Z team_id
                    ++ " na temporada " ++ season ++ "...") :: t)%list
      /\ Forall (retry_event TeamGameLog
                   [("team_id", VInt team_id); ("season", VStr season)] 10) t
      /\ (1 <= calls t <= 5)%nat)
  /\ (exists t,
        trace (snd (get_team_roster invoke get_data_frames elapse team_id season s))
        = (trace s
           ++ EPrint ("Coletando roster para o time " ++ str_Z team_id
                      ++ " na temporada " ++ season ++ "...") :: t)%list
        /\ Forall (retry_event CommonTeamRoster
                     [("team_id", VInt team_id); ("season", VStr season)] 10) t
        /\ (1 <= calls t <= 5)%nat)
  /\ (exists t,
        trace (snd (get_player_game_logs invoke get_data_frames elapse player_id season s))
        = (trace s
           ++ EPrint ("Coletando logs de jogos para o jogador " ++ str_value player_id
                      ++ " na temporada " ++ season ++ "...") :: t)%list
        /\ Forall (retry_event PlayerGameLog
                     [("player_id", player_id); ("season", VStr season)] 10) t
        /\ (1 <= calls t <= 5)%nat).
Proof. repeat split; apply fetch_budget. Qed.

(** X6.  A response that holds no table is fatal and is not retried: when the
    first call of a fetcher is answered by such a response, the fetcher
    raises [IndexError] after that single call. *)
Theorem fetchers_no_table (team_id : Z) (player_id : value) (season : string)
    (s : state World) (response : Response) (w1 : World) :
  get_data_frames response = [] ->
  (invoke TeamGameLog [("team_id", VInt team_id); ("season", VStr season)] (world s)
   = (Ok response, w1) ->
   get_team_game_logs invoke get_data_frames elapse team_id season s
   = (Raise (mkExn IndexError "list index out of range"),
      mkState w1
        (trace s
         ++ [EPrint ("Coletando log de jogos para o time " ++ str_Z team_id
                     ++ " na temporada " ++ season ++ "...");
             ECall TeamGameLog [("team_id", VInt team_id); ("season", VStr season)]])))
  /\ (invoke CommonTeamRoster [("team_id", VInt team_id); ("season", VStr season)]
        (world s)
      = (Ok response, w1) ->
      get_team_roster invoke get_data_frames elapse team_id season s
      = (Raise (mkExn IndexError "list index out of range"),
         mkState w1
           (trace s
            ++ [EPrint ("Coletando roster para o time " ++ str_Z team_id
                        ++ " na temporada " ++ season ++ "...");
                ECall CommonTeamRoster
                  [("team_id", VInt team_id); ("season", VStr season)]])))
  /\ (invoke PlayerGameLog [("player_id", player_id); ("season", VStr season)] (world s)
      = (Ok response, w1) ->
      get_player_game_logs invoke get_data_frames elapse player_id season s
      = (Raise (mkExn IndexError "list index out of range"),
         mkState w1
           (trace s
            ++ [EPrint ("Coletando logs de jogos para o jogador " ++ str_value player_id
                        ++ " na temporada " ++ season ++ "...");
                ECall PlayerGameLog
                  [("player_id", player_id); ("season", VStr season)]]))).
Proof.
  intros Hnone. repeat split; intros Hinv;
    now apply fetch_no_table with (response := response).
Qed.

End FetcherProperties.

(** ** The roster filter on any frame *)

Section RosterFilterEdges.

Context {World : Type}.
Variable roster_df : DataFrame.

Lemma get_column_absent (df : DataFrame) c :
  has_column df c = false -> get_column df c = Raise (mkExn KeyError c).
Proof. intros H. unfold get_column. now rewrite H. Qed.

Lemma dict_set_fresh (d : dict) (k v : value) :
  ~ In k (map fst d) -> dict_set d k v = (d ++ [(k, v)])%list.
Proof.
  induction d as [|[k0 v0] d IH]; simpl; intros Hk; auto.
  destruct (value_eqb k k0) eqn:E.
  - apply value_eqb_eq in E. subst. exfalso. auto.
  - rewrite IH; auto.
Qed.

Lemma dict_fold_distinct (pairs : list (value * value)) :
  forall acc : dict,
    NoDup (map fst (acc ++ pairs)) ->
    fold_left (fun d kv => dict_set d (fst kv) (snd kv)) pairs acc
    = (acc ++ pairs)%list.
Proof.
  induction pairs as [|[k v] pairs IH]; intros acc Hnd; simpl.
  - now rewrite app_nil_r.
  - rewrite dict_set_fresh.
    + rewrite IH; rewrite <- app_assoc; auto.
    + rewrite map_app in Hnd. simpl in Hnd.
      apply NoDup_remove_2 in Hnd. intros Hin. apply Hnd.
      apply in_or_app. now left.
Qed.

Lemma is_member_ext (players players' : list string) (v : value) :
  (forall name, In name players <-> In name players') ->
  is_member players v = is_member players' v.
Proof.
  intros H. destruct v as [name| |]; simpl; auto.
  apply eq_true_iff_eq. rewrite !existsb_exists.
  split; intros [x [Hin E]]; exists x; split; auto; now apply H.
Qed.

Lemma get_player_ids_no_player (players : list string) (s : state World) :
  has_column roster_df "PLAYER" = false ->
  get_player_ids roster_df players s = (Raise (mkExn KeyError "PLAYER"), s).
Proof.
  intros Hp. unfold get_player_ids, bind, lift.
  now rewrite (get_column_absent _ _ Hp).
Qed.

Lemma get_player_ids_no_match (players : list string) (s : state World) :
  has_column roster_df "PLAYER" = true ->
  matching_rows roster_df players = [] ->
  get_player_ids roster_df players s
  = (Ok [], mkState (world s)
              (trace s ++ [EPrint "Nenhum jogador encontrado no roster!"])).
Proof.
  intros Hp Hm. unfold get_player_ids, bind, lift.
  rewrite (get_column_present _ _ Hp), filtered_rows, Hm.
  unfold df_empty. cbn [df_columns df_rows].
  now destruct (df_columns roster_df).
Qed.

Lemma get_player_ids_no_id (players : list string) (s : state World) :
  has_column roster_df "PLAYER" = true ->
  matching_rows roster_df players <> [] ->
  has_column roster_df "PLAYER_ID" = false ->
  get_player_ids roster_df players s = (Raise (mkExn KeyError "PLAYER_ID"), s).
Proof.
  intros Hp Hm Hid. unfold get_player_ids, bind, lift.
  rewrite (get_column_present _ _ Hp), filtered_rows.
  pose proof (has_column_nonempty _ _ Hp) as Hne.
  unfold df_empty. cbn [df_columns df_rows].
  destruct (df_columns roster_df) as [|c0 cols] eqn:Hcols; [congruence|].
  destruct (matching_rows roster_df players) as [|r rows] eqn:Hrows; [congruence|].
  rewrite <- Hcols.
  set (filtered := mkDF (df_columns roster_df) (r :: rows)).
  rewrite get_column_present
    by (rewrite (has_column_same_columns roster_df filtered); auto).
  rewrite get_column_absent
    by (rewrite (has_column_same_columns roster_df filtered); auto).
  reflexivity.
Qed.

(** Whenever the filter returns a map, it is the map of the matching rows. *)
Lemma get_player_ids_returned (players : list string) (s : state World) (d : dict) :
  fst (get_player_ids roster_df players s) = Ok d ->
  d = dict_of (map (roster_item roster_df) (matching_rows roster_df players)).
Proof.
  destruct (has_column roster_df "PLAYER") eqn:Hp.
  - destruct (matching_rows roster_df players) as [|r rows] eqn:Hm.
    + rewrite get_player_ids_no_match by assumption. cbn. congruence.
    + destruct (has_column roster_df "PLAYER_ID") eqn:Hid.
      * rewrite get_player_ids_run, Hm by assumption. cbn [fst]. congruence.
      * rewrite get_player_ids_no_id; try assumption; [discriminate|].
        rewrite Hm. discriminate.
  - rewrite get_player_ids_no_player by assumption. discriminate.
Qed.

(** The keys of the map of the matching rows are distinct requested names. *)
Lemma roster_keys (players : list string) :
  let d := dict_of (map (roster_item roster_df) (matching_rows roster_df players)) in
  exists names : list string,
    map fst d = map VStr names
    /\ NoDup names
    /\ incl names players.
Proof.
  intros d.
  destruct (dict_of_keys (map (roster_item roster_df) (matching_rows roster_df players)))
    as [Hnd Hkeys]. fold d in Hnd, Hkeys.
  assert (forall k, In k (map fst d) -> exists name, k = VStr name /\ In name players)
    as Hmem.
  { intros k Hk. apply Hkeys in Hk. rewrite map_map in Hk. simpl in Hk.
    apply in_map_iff in Hk. destruct Hk as [r [<- Hr]].
    destruct (matching_rows_member roster_df players r Hr) as [name [-> Hname]].
    eauto. }
  clear Hkeys. revert Hnd Hmem. generalize (map fst d). intros keys.
  induction keys as [|k keys IH]; intros Hnd Hmem.
  - exists []. repeat split; [constructor|intros x []].
  - inversion Hnd as [|k' keys' Hk Hnd']; subst.
    destruct IH as [names [Hn [Hd Hi]]]; auto.
    { intros k' Hk'. apply Hmem. now right. }
    destruct (Hmem k) as [name [-> Hname]]; [now left|].
    exists (name :: names). repeat split.
    + simpl. now rewrite Hn.
    + constructor; auto. intros Hin. apply Hk. rewrite Hn. now apply in_map.
    + intros x [<-|Hx]; auto.
Qed.

(** X7.  The filter on a frame that lacks a column: without [PLAYER] it
    raises [KeyError] and prints nothing; with [PLAYER] but no matching row
    it warns and returns the empty map even when [PLAYER_ID] is missing;
    with matching rows and no [PLAYER_ID] it raises [KeyError]. *)
Theorem get_player_ids_missing_columns (players : list string) (s : state World) :
  (has_column roster_df "PLAYER" = false ->
   get_player_ids roster_df players s = (Raise (mkExn KeyError "PLAYER"), s))
  /\ (has_column roster_df "PLAYER" = true ->
      matching_rows roster_df players = [] ->
      get_player_ids roster_df players s
      = (Ok [], mkState (world s)
                  (trace s ++ [EPrint "Nenhum jogador encontrado no roster!"])))
  /\ (has_column roster_df "PLAYER" = true ->
      matching_rows roster_df players <> [] ->
      has_column roster_df "PLAYER_ID" = false ->
      get_player_ids roster_df players s = (Raise (mkExn KeyError "PLAYER_ID"), s)).
Proof.
  split; [|split].
  - apply get_player_ids_no_player.
  - apply get_player_ids_no_match.
  - apply get_player_ids_no_id.
Qed.

(** X8.  When no name occurs twice among the matching rows, the map lists
    them in roster order, each name with the identifier of its row: the
    players are then processed in roster order, not in the order requested. *)
Theorem get_player_ids_roster_order (players : list string) (s : state World) :
  has_column roster_df "PLAYER" = true ->
  has_column roster_df "PLAYER_ID" = true ->
  NoDup (map (fun r => cell roster_df r "PLAYER") (matching_rows roster_df players)) ->
  fst (get_player_ids roster_df players s)
  = Ok (map (roster_item roster_df) (matching_rows roster_df players)).
Proof.
  intros Hp Hid Hnd. rewrite get_player_ids_run by assumption.
  destruct (matching_rows roster_df players) as [|r rows] eqn:Hrows; [reflexivity|].
  cbn [fst]. f_equal. unfold dict_of.
  apply (dict_fold_distinct (map (roster_item roster_df) (r :: rows)) []).
  cbn [app]. rewrite map_map. exact Hnd.
Qed.

(** X9.  Only membership in the requested names matters: two lists holding
    the same names, in any order and with any repetitions, give the same map
    and the same trace. *)
Theorem get_player_ids_same_names (players players' : list string) (s : state World) :
  (forall name, In name players <-> In name players') ->
  get_player_ids roster_df players s = get_player_ids roster_df players' s.
Proof.
  intros H. unfold get_player_ids, bind, lift.
  destruct (get_column roster_df "PLAYER") as [col|e]; [|reflexivity].
  replace (isin col players') with (isin col players); [reflexivity|].
  unfold isin. apply map_ext. intros v. now apply is_member_ext.
Qed.

End RosterFilterEdges.

(** ** Failures of the two conference tables *)

Section ConferenceFailures.

Variable df : DataFrame.

Lemma select_columns_missing (rows : list (list value)) (cols : list string) e :
  select_columns (mkDF (df_columns df) rows) cols = Raise e ->
  exn_cls e = KeyError /\ forallb (has_column df) cols = false.
Proof.
  unfold select_columns.
  change (fun c => negb (has_column (mkDF (df_columns df) rows) c))
    with (fun c => negb (has_column df c)).
  destruct (filter (fun c => negb (has_column df c)) cols) as [|c missing] eqn:Hf.
  - discriminate.
  - intros H. injection H as <-. split; [reflexivity|].
    assert (In c (filter (fun c => negb (has_column df c)) cols)) as Hin
      by (rewrite Hf; now left).
    apply filter_In in Hin. destruct Hin as [Hin Hc].
    apply negb_true_iff in Hc.
    destruct (forallb (has_column df) cols) eqn:E; auto.
    rewrite forallb_forall in E. rewrite (E c Hin) in Hc. discriminate.
Qed.

Lemma select_columns_absent (rows : list (list value)) (cols : list string) :
  forallb (has_column df) cols = false ->
  exists e, select_columns (mkDF (df_columns df) rows) cols = Raise e.
Proof.
  intros H. unfold select_columns.
  change (fun c => negb (has_column (mkDF (df_columns df) rows) c))
    with (fun c => negb (has_column df c)).
  destruct (filter (fun c => negb (has_column df c)) cols) as [|c missing] eqn:Hf;
    [|eauto].
  exfalso. assert (forallb (has_column df) cols = true) as Hall; [|congruence].
  apply forallb_forall. intros c Hin.
  destruct (has_column df c) eqn:Hc; auto.
  assert (In c (filter (fun c => negb (has_column df c)) cols)) as Hin'
    by (apply filter_In; split; auto; now rewrite Hc).
  rewrite Hf in Hin'. destruct Hin'.
Qed.

(** X10.  The listing returns a table exactly when the standings frame has
    the [Conference], [TeamName] and [TeamID] columns, the classification
    exactly when it has [Conference]; otherwise they raise, and what they
    raise is always a [KeyError]. *)
Theorem conference_tables_failures :
  ((exists out, times_por_conferencia df = Ok out) <->
   has_column df "Conference" = true
   /\ has_column df "TeamName" = true
   /\ has_column df "TeamID" = true)
  /\ (forall e, times_por_conferencia df = Raise e -> exn_cls e = KeyError)
  /\ ((exists out, classificacao_por_conferencia df = Ok out) <->
      has_column df "Conference" = true)
  /\ (forall e, classificacao_por_conferencia df = Raise e -> exn_cls e = KeyError).
Proof.
  assert (forall e, times_por_conferencia df = Raise e ->
                    exn_cls e = KeyError
                    /\ (has_column df "Conference" = false
                        \/ forallb (has_column df) ["TeamName"; "TeamID"] = false))
    as Htimes.
  { intros e. unfold times_por_conferencia.
    destruct (has_column df "Conference") eqn:Hc.
    - rewrite (get_column_present _ _ Hc), !conference_frame.
      destruct (select_columns (mkDF (df_columns df) (conference_rows df "East")) _)
        as [leste|e1] eqn:He.
      + destruct (select_columns (mkDF (df_columns df) (conference_rows df "West")) _)
          as [oeste|e2] eqn:Hw; [discriminate|].
        intros H. injection H as <-.
        destruct (select_columns_missing _ _ _ Hw). auto.
      + intros H. injection H as <-.
        destruct (select_columns_missing _ _ _ He). auto.
    - rewrite (get_column_absent _ _ Hc). intros H. injection H as <-. auto. }
  assert (forall e, classificacao_por_conferencia df = Raise e ->
                    exn_cls e = KeyError /\ has_column df "Conference" = false)
    as Hclass.
  { intros e. destruct (has_column df "Conference") eqn:Hc.
    - rewrite (classificacao_por_conferencia_run _ Hc). discriminate.
    - unfold classificacao_por_conferencia. rewrite Hc. cbn [negb].
      intros H. injection H as <-. auto. }
  split; [|split; [|split]].
  - split.
    + intros [out Hout].
      destruct (has_column df "Conference") eqn:Hc.
      * destruct (forallb (has_column df) ["TeamName"; "TeamID"]) eqn:Hcols.
        -- cbn [forallb] in Hcols. apply andb_prop in Hcols. destruct Hcols as [Hn Hi].
           rewrite andb_true_r in Hi. auto.
        -- exfalso. revert Hout. unfold times_por_conferencia.
           rewrite (get_column_present _ _ Hc), !conference_frame.
           destruct (select_columns_absent (conference_rows df "East") _ Hcols)
             as [e ->].
           discriminate.
      * exfalso. revert Hout. unfold times_por_conferencia.
        rewrite (get_column_absent _ _ Hc). discriminate.
    + intros [Hc [Hn Hi]]. eexists. now apply times_por_conferencia_run.
  - intros e He. now destruct (Htimes e He).
  - split.
    + intros [out Hout]. destruct (has_column df "Conference") eqn:Hc; auto.
      exfalso. revert Hout. unfold classificacao_por_conferencia. rewrite Hc.
      discriminate.
    + intros Hc. eexists. now apply classificacao_por_conferencia_run.
  - intros e He. now destruct (Hclass e He).
Qed.

End ConferenceFailures.

(** ** Files and requests of a season *)

Lemma files_app t u : files (t ++ u) = (files t ++ files u)%list.
Proof. unfold files. apply flat_map_app. Qed.

Lemma dirs_app t u : dirs (t ++ u) = (dirs t ++ dirs u)%list.
Proof. unfold dirs. apply flat_map_app. Qed.

Lemma files_cons ev t :
  files (ev :: t)
  = ((match ev with EWriteCsv p df => [(p, df)] | _ => [] end) ++ files t)%list.
Proof. reflexivity. Qed.

Lemma dirs_cons ev t :
  dirs (ev :: t) = ((match ev with EMakedirs p => [p] | _ => [] end) ++ dirs t)%list.
Proof. reflexivity. Qed.

Lemma calls_cons ev t :
  calls (ev :: t) = ((if is_call ev then 1 else 0) + calls t)%nat.
Proof. unfold calls. simpl. now destruct (is_call ev). Qed.

Lemma files_nil : files [] = [].
Proof. reflexivity. Qed.

Lemma dirs_nil : dirs [] = [].
Proof. reflexivity. Qed.

Lemma calls_nil : calls [] = O.
Proof. reflexivity. Qed.

Ltac tally :=
  cbv beta zeta;
  repeat first
    [ rewrite files_cons | rewrite files_app | rewrite dirs_cons | rewrite dirs_app
    | rewrite calls_cons | rewrite calls_app
    | rewrite files_nil | rewrite dirs_nil | rewrite calls_nil ];
  cbn [app is_call Nat.add].

Section SeasonFiles.

Context {World Response : Type}.
Variable invoke : callable -> kwargs -> World -> result Response * World.
Variable get_data_frames : Response -> list DataFrame.
Variable elapse : Z -> World -> World.

Lemma retry_events_no_files f kw d t :
  Forall (retry_event f kw d) t -> files t = [] /\ dirs t = [].
Proof.
  induction 1 as [|ev t Hev _ [IHf IHd]]; [now split|].
  destruct ev; simpl in *; try contradiction; auto.
Qed.

Lemma fetch_cost_emits (line : string) (f : callable) (kw : kwargs) :
  emits (bind (print line)
           (fun _ => bind (retry_request invoke elapse f kw 5 10)
                       (first_frame get_data_frames)))
        fetch_cost.
Proof.
  intros s. destruct (fetch_budget invoke get_data_frames elapse line f kw s)
    as [t [Ht [Hev [_ Hc]]]].
  exists (EPrint line :: t). split; [exact Ht|].
  destruct (retry_events_no_files _ _ _ _ Hev) as [Hf Hd].
  repeat split; auto.
Qed.

Lemma process_player_out season safe_season players_dir item :
  emits (process_player invoke get_data_frames elapse season safe_season players_dir item)
        (player_out players_dir safe_season item).
Proof.
  destruct item as [player player_id]. unfold process_player.
  eapply emits_bind; [apply fetch_cost_emits| |].
  - intros e t [Hf [Hd Hc]]. repeat split; auto. discriminate.
  - intros pgl_df t [Hf [Hd Hc]]. destruct player as [name| |].
    + unfold to_csv, print. do 2 apply emits_emit_then. apply emits_sleep; [lia|].
      repeat split.
      * rewrite dirs_app, Hd. reflexivity.
      * rewrite calls_app. change (calls _) with O at 2. lia.
      * intros _. exists name, pgl_df. split; [reflexivity|].
        rewrite files_app, Hf. reflexivity.
    + apply emits_raise. rewrite app_nil_r. repeat split; auto. discriminate.
    + apply emits_raise. rewrite app_nil_r. repeat split; auto. discriminate.
Qed.

Lemma players_loop_out season safe_season players_dir (player_ids : dict) :
  emits (for_each player_ids
           (process_player invoke get_data_frames elapse season safe_season players_dir))
        (players_out players_dir safe_season player_ids).
Proof.
  induction player_ids as [|item items IH]; cbn [for_each].
  - apply emits_ret. repeat split; auto. intros _. exists [], []. auto.
  - eapply emits_bind; [apply process_player_out| |].
    + intros e t [Hd [Hc _]]. repeat split; auto; [cbn [length]; lia|discriminate].
    + intros [] t [Hd [Hc Hok]]. eapply emits_weaken; [apply IH|].
      intros r u [Hd' [Hc' Hok']]. repeat split.
      * now rewrite dirs_app, Hd, Hd'.
      * rewrite calls_app. cbn [length]. lia.
      * intros Hr. destruct (Hok eq_refl) as [name [log [Hname Hfile]]].
        destruct (Hok' Hr) as [names [logs [Hnames [Hlen Hfiles]]]].
        exists (name :: names), (log :: logs). repeat split.
        -- cbn [map]. now rewrite Hname, Hnames.
        -- cbn [length]. now rewrite Hlen.
        -- rewrite files_app, Hfile, Hfiles. reflexivity.
Qed.

Lemma get_player_ids_out (roster_df : DataFrame) (players : list string) :
  emits (World := World) (get_player_ids roster_df players)
    (fun r t =>
       files t = [] /\ dirs t = [] /\ calls t = O
       /\ forall d, r = Ok d ->
                    d = dict_of (map (roster_item roster_df)
                                   (matching_rows roster_df players))).
Proof.
  intros s. destruct (get_player_ids_emits roster_df players s) as [t [Ht [Hshape Hfst]]].
  exists t. split; [exact Ht|].
  split; [|split; [|split]]; try (destruct Hshape as [->|[line ->]]; reflexivity).
  intros d Hd. apply (get_player_ids_returned roster_df players s). exact Hd.
Qed.

Lemma map_VStr_inj (names names' : list string) :
  map VStr names = map VStr names' -> names = names'.
Proof.
  revert names'. induction names as [|x names IH]; intros [|y names'] H;
    simpl in *; try discriminate; auto.
  injection H as -> H. f_equal. now apply IH.
Qed.

Lemma roster_map_bound (roster_df : DataFrame) (players names : list string) :
  map fst (dict_of (map (roster_item roster_df) (matching_rows roster_df players)))
  = map VStr names ->
  (length names <= length players)%nat.
Proof.
  intros Hn. destruct (roster_keys roster_df players) as [names' [Hn' [Hnd Hincl]]].
  rewrite Hn in Hn'. apply map_VStr_inj in Hn'. subst names'.
  now apply NoDup_incl_length.
Qed.

Lemma process_season_out team_id players season :
  emits (process_season invoke get_data_frames elapse team_id players season)
        (season_out players season).
Proof.
  unfold process_season, makedirs. do 2 apply emits_emit_then.
  unfold print at 1. apply emits_emit_then.
  eapply emits_bind; [apply fetch_cost_emits| |].
  { intros e t [Hf [Hd Hc]]. unfold season_out.
    repeat split; tally; [now rewrite Hd|lia|discriminate]. }
  intros team_games t1 [Hf1 [Hd1 Hc1]].
  unfold to_csv at 1, print at 1. do 2 apply emits_emit_then.
  apply emits_sleep_then; [lia|].
  eapply emits_bind; [apply fetch_cost_emits| |].
  { intros e t [Hf [Hd Hc]]. unfold season_out.
    repeat split; tally; [now rewrite Hd1, Hd|lia|discriminate]. }
  intros roster_df t2 [Hf2 [Hd2 Hc2]].
  unfold to_csv at 1, print at 1. do 2 apply emits_emit_then.
  apply emits_sleep_then; [lia|].
  eapply emits_bind; [apply get_player_ids_out| |].
  { intros e t [Hf [Hd [Hc _]]]. unfold season_out.
    repeat split; tally; [now rewrite Hd1, Hd2, Hd|lia|discriminate]. }
  intros player_ids t3 [Hf3 [Hd3 [Hc3 Hids]]].
  specialize (Hids player_ids eq_refl).
  eapply emits_weaken; [apply players_loop_out|].
  intros r u [Hdu [Hcu Hok]]. unfold season_out.
  destruct (roster_keys roster_df players) as [names0 [Hn0 _]].
  rewrite <- Hids in Hn0.
  assert (length player_ids <= length players)%nat as Hbound.
  { rewrite <- (length_map fst), Hn0, length_map.
    apply (roster_map_bound roster_df). now rewrite <- Hids. }
  repeat split; tally.
  - now rewrite Hd1, Hd2, Hd3, Hdu.
  - lia.
  - intros Hr. destruct (Hok Hr) as [names [logs [Hnames [Hlen Hfiles]]]].
    exists team_games, roster_df, names, logs. repeat split; auto.
    + now rewrite <- Hids.
    + tally. now rewrite Hf1, Hf2, Hf3, Hfiles.
Qed.

(** X11.  A season that completes has written, in this order, the team game
    log, the roster, and one game log per key of the player map built from
    that very roster, each under the season's directories; the keys are
    requested names, no more of them than were requested. *)
Theorem season_files_in_order (team_id : Z) (players : list string) (season : string)
    (s s' : state World) :
  process_season invoke get_data_frames elapse team_id players season s = (Ok tt, s') ->
  exists (t : list event) (team_games roster_df : DataFrame) (names : list string)
         (logs : list DataFrame),
    trace s' = (trace s ++ t)%list
    /\ map fst (dict_of (map (roster_item roster_df) (matching_rows roster_df players)))
       = map VStr names
    /\ incl names players
    /\ (length names <= length players)%nat
    /\ length logs = length names
    /\ files t
       = (path_join (path_join (path_join "data/raw" (replace_char "/" "-" season)) "team")
            ("games_" ++ replace_char "/" "-" season ++ ".csv"), team_games)
         :: (path_join (path_join (path_join "data/raw" (replace_char "/" "-" season)) "team")
               ("roster_" ++ replace_char "/" "-" season ++ ".csv"), roster_df)
         :: combine
              (map (player_file
                      (path_join (path_join "data/raw" (replace_char "/" "-" season))
                         "players")
                      (replace_char "/" "-" season)) names)
              logs.
Proof.
  intros Hrun. destruct (process_season_out team_id players season s)
    as [t [Ht [_ [_ Hok]]]].
  rewrite Hrun in Ht, Hok. cbn [fst snd] in *.
  destruct (Hok eq_refl) as [team_games [roster_df [names [logs [Hn [Hl Hf]]]]]].
  exists t, team_games, roster_df, names, logs. repeat split; auto.
  - destruct (roster_keys roster_df players) as [names' [Hn' [_ Hincl]]].
    rewrite Hn in Hn'. apply map_VStr_inj in Hn'. now subst names'.
  - now apply (roster_map_bound roster_df).
Qed.


End SeasonFiles.

(** ** Pacing of a season *)

Section SeasonPacing.

Context {World Response : Type}.
Variable invoke : callable -> kwargs -> World -> result Response * World.
Variable get_data_frames : Response -> list DataFrame.
Variable elapse : Z -> World -> World.

(** Two facts on what a computation emits are facts on the same events. *)
Lemma emits_both {A} (m : M World A) (P Q : result A -> list event -> Prop) :
  emits m P -> emits m Q -> emits m (fun r t => P r t /\ Q r t).
Proof.
  intros HP HQ s. destruct (HP s) as [t [Ht HPt]]. destruct (HQ s) as [u [Hu HQu]].
  rewrite Ht in Hu. apply app_inv_head in Hu. subst u. exists t. auto.
Qed.

Lemma process_season_link team_id players season :
  emits (process_season invoke get_data_frames elapse team_id players season)
        (season_link (World := World) players season).
Proof.
  unfold process_season, makedirs. do 2 apply emits_emit_then.
  unfold print at 1. apply emits_emit_then.
  eapply emits_bind;
    [apply emits_both;
     [apply (get_team_game_logs_emits invoke get_data_frames elapse)
     |apply fetch_cost_emits]| |].
  { intros e t _. unfold season_link. discriminate. }
  intros team_games t1 [[Hev1 _] [Hf1 _]].
  destruct (fetch_events_no_pacing_wait _ _ Hev1) as [_ H13].
  unfold to_csv at 1, print at 1. do 2 apply emits_emit_then.
  apply emits_sleep_then; [lia|].
  eapply emits_bind;
    [apply emits_both;
     [apply (get_team_roster_emits invoke get_data_frames elapse)
     |apply fetch_cost_emits]| |].
  { intros e t _. unfold season_link. discriminate. }
  intros roster_df t2 [[Hev2 _] [Hf2 _]].
  destruct (fetch_events_no_pacing_wait _ _ Hev2) as [_ H23].
  unfold to_csv at 1, print at 1. do 2 apply emits_emit_then.
  apply emits_sleep_then; [lia|].
  eapply emits_bind;
    [apply emits_both; [apply get_player_ids_emits|apply get_player_ids_out]| |].
  { intros e t _. unfold season_link. discriminate. }
  intros player_ids t3 [[Hshape Hfst] [Hf3 _]].
  assert (sleeps_of 3 t3 = O) as H33
    by (destruct Hshape as [->|[line ->]]; reflexivity).
  eapply emits_weaken;
    [apply emits_both;
     [apply (players_loop_emits invoke get_data_frames elapse)
     |apply (players_loop_out invoke get_data_frames elapse)]|].
  intros r u [[_ [_ Hu3]] [_ [_ Hok]]]. unfold season_link. intros Hr.
  destruct (Hok Hr) as [names [logs [Hn [Hl Hfiles]]]].
  exists team_games, roster_df, player_ids, names, logs.
  split; [exact Hfst|]. split; [exact Hn|]. split; [exact Hl|]. split.
  - tally. now rewrite Hf1, Hf2, Hf3, Hfiles.
  - cbv beta. repeat first [rewrite sleeps_of_cons | rewrite sleeps_of_app].
    rewrite H13, H23, H33, (Hu3 Hr). reflexivity.
Qed.

(** C9.  Inside the loop over the seasons every file written is followed by
    its report line and then by the fixed wait, 2 seconds after a team-level
    fetch and 3 seconds after a player-level fetch, however the loop ends; a
    season that completes has written the game log, the roster and one file
    per entry of the player map the filter returns on that very roster, and
    holds exactly two 2-second waits and one 3-second wait per entry of that
    map (retry waits last 10 seconds); the standings phase after the loop
    holds no 2- or 3-second wait at all. *)
Theorem season_steps_are_paced (team_id : Z) (players seasons : list string) :
  (forall s : state World,
      exists t,
        trace (snd (for_each seasons
                      (process_season invoke get_data_frames elapse team_id players) s))
        = (trace s ++ t)%list
        /\ paced t = true)
  /\ (forall (season : string) (s s' : state World),
        process_season invoke get_data_frames elapse team_id players season s
        = (Ok tt, s') ->
        exists (t : list event) (team_games roster_df : DataFrame) (player_ids : dict)
               (names : list string) (logs : list DataFrame),
          trace s' = (trace s ++ t)%list
          /\ paced t = true
          /\ files t
             = (path_join
                  (path_join (path_join "data/raw" (replace_char "/" "-" season)) "team")
                  ("games_" ++ replace_char "/" "-" season ++ ".csv"), team_games)
               :: (path_join
                     (path_join (path_join "data/raw" (replace_char "/" "-" season)) "team")
                     ("roster_" ++ replace_char "/" "-" season ++ ".csv"), roster_df)
               :: combine
                    (map (player_file
                            (path_join (path_join "data/raw" (replace_char "/" "-" season))
                               "players")
                            (replace_char "/" "-" season)) names)
                    logs
          /\ fst (get_player_ids roster_df players s) = Ok player_ids
          /\ map fst player_ids = map VStr names
          /\ length logs = length names
          /\ sleeps_of 2 t = 2%nat
          /\ sleeps_of 3 t = length player_ids)
  /\ (forall s : state World,
        exists t,
          trace (snd (standings_phase invoke get_data_frames elapse s))
          = (trace s ++ t)%list
          /\ sleeps_of 2 t = O
          /\ sleeps_of 3 t = O).
Proof.
  split; [|split].
  - intros s.
    destruct (seasons_loop_emits invoke get_data_frames elapse team_id players seasons s)
      as [t [Ht Hp]].
    exists t. split; auto. now apply keeps_pace_paced.
  - intros season s s' Hrun.
    destruct (emits_both _ _ _
                (process_season_emits invoke get_data_frames elapse team_id players season)
                (process_season_link team_id players season) s)
      as [t [Ht [[Hp Hcount] Hlink]]].
    rewrite Hrun in Ht, Hcount, Hlink. cbn [fst snd] in *.
    destruct (Hcount eq_refl) as [H2 _].
    destruct (Hlink eq_refl)
      as [team_games [roster_df [player_ids [names [logs [Hg [Hn [Hl [Hf H3]]]]]]]]].
    exists t, team_games, roster_df, player_ids, names, logs.
    repeat split; auto. now apply keeps_pace_paced.
  - intros s.
    destruct (standings_phase_emits invoke get_data_frames elapse s) as [t [Ht Hev]].
    exists t. split; auto. now apply standings_events_no_pacing_wait.
Qed.

End SeasonPacing.

(** ** Where a season's files go *)

Section SeasonPaths.








End SeasonPaths.

(** ** How a run ends *)

Section RunOutcomes.

Context {World Response : Type}.
Variable invoke : callable -> kwargs -> World -> result Response * World.
Variable get_data_frames : Response -> list DataFrame.
Variable elapse : Z -> World -> World.

Lemma for_each_app {A} (xs ys : list A) (body : A -> M World unit) (s : state World) :
  for_each (xs ++ ys) body s
  = match for_each xs body s with
    | (Ok _, s1) => for_each ys body s1
    | (Raise e, s1) => (Raise e, s1)
    end.
Proof.
  revert s. induction xs as [|x xs IH]; intros s; cbn [for_each app].
  - reflexivity.
  - unfold bind. destruct (body x s) as [[[]|e] s1]; auto.
Qed.

(** X14.  A run stops at its first failure: when a season's turn raises, the
    run raises the same error in the state that turn left, so that neither
    the seasons after it nor the standings are ever started; and when the
    listing raises, the classification is not started either. *)
Theorem run_stops_at_first_failure (team_id : Z) (players before after : list string)
    (season : string) (s s1 s2 : state World) (e : exn) :
  for_each before (process_season invoke get_data_frames elapse team_id players) s
  = (Ok tt, s1) ->
  (process_season invoke get_data_frames elapse team_id players season s1
   = (Raise e, s2) ->
   run invoke get_data_frames elapse team_id (before ++ season :: after) players s
   = (Raise e, s2))
  /\ (listar_times_por_conferencia invoke get_data_frames elapse "data/raw"
        (mkState (world s1)
           (trace s1 ++ [EPrint (nl ++ "=== Listando Times por Conferência (RF1) ===")]))
      = (Raise e, s2) ->
      run invoke get_data_frames elapse team_id before players s = (Raise e, s2)).
Proof.
  intros Hbefore. split; intros Hfail.
  - unfold run, bind. rewrite for_each_app, Hbefore. cbn [for_each].
    unfold bind. now rewrite Hfail.
  - unfold run, bind. rewrite Hbefore.
    unfold standings_phase, bind, print, emit. now rewrite Hfail.
Qed.





End RunOutcomes.

(** ** The further properties at recorded sessions *)

Lemma retry_request_never_transient_at_bad_payload :
  is_transient bad_payload = false.
Proof.
  apply (retry_request_never_transient replay no_clock TeamGameLog [] 5 10
           (start [Raise connection_refused; Raise bad_payload])
           (mkState []
              [ECall TeamGameLog [];
               EPrint "Erro de conexão: Connection refused. Tentativa 1 de 5...";
               ESleep 10;
               ECall TeamGameLog []])
           bad_payload).
  reflexivity.
Defined.

Lemma retry_request_without_attempts_at_minus_one :
  retry_request replay no_clock TeamGameLog [] (-1) 10 (start [Ok [games]])
  = (Raise (mkExn Exception_ "Falha após -1 tentativas."), start [Ok [games]]).
Proof.
  apply (retry_request_without_attempts replay no_clock TeamGameLog [] (-1) 10
           (start [Ok [games]])).
  lia.
Defined.

Lemma retry_request_negative_delay_at_refusal :
  retry_request replay no_clock TeamGameLog [] 5 (-1)
    (start [Raise connection_refused; Ok [games]])
  = (Raise (mkExn ValueError "sleep length must be non-negative"),
     mkState [Ok [games]]
       [ECall TeamGameLog [];
        EPrint "Erro de conexão: Connection refused. Tentativa 1 de 5..."]).
Proof.
  apply (retry_request_negative_delay replay no_clock TeamGameLog [] 5 (-1)
           (start [Raise connection_refused; Ok [games]]) connection_refused
           [Ok [games]]).
  - lia.
  - lia.
  - reflexivity.
  - reflexivity.
Defined.

Lemma fetchers_no_table_at_empty_response :
  get_team_roster replay frames no_clock 1610612763 "2023-24" (start [Ok []; Ok [roster]])
  = (Raise (mkExn IndexError "list index out of range"),
     mkState [Ok [roster]]
       [EPrint "Coletando roster para o time 1610612763 na temporada 2023-24...";
        ECall CommonTeamRoster
          [("team_id", VInt 1610612763); ("season", VStr "2023-24")]]).
Proof.
  destruct (fetchers_no_table replay frames no_clock 1610612763 (VInt 1) "2023-24"
              (start [Ok []; Ok [roster]]) [] [Ok [roster]])
    as [_ [Hroster _]].
  - reflexivity.
  - apply Hroster. reflexivity.
Defined.

Lemma get_player_ids_roster_order_at_roster :
  fst (get_player_ids roster ["Jaren Jackson Jr."; "Ja Morant"]
         (start (@nil (result (list DataFrame)))))
  = Ok [(VStr "Ja Morant", VInt 1); (VStr "Jaren Jackson Jr.", VInt 3)].
Proof.
  apply (get_player_ids_roster_order roster ["Jaren Jackson Jr."; "Ja Morant"]
           (start (@nil (result (list DataFrame))))).
  - reflexivity.
  - reflexivity.
  - apply distinct_values_NoDup. reflexivity.
Defined.

Lemma get_player_ids_same_names_at_roster :
  get_player_ids roster ["Jaren Jackson Jr."; "Ja Morant"]
    (start (@nil (result (list DataFrame))))
  = get_player_ids roster ["Ja Morant"; "Jaren Jackson Jr."; "Ja Morant"]
      (start (@nil (result (list DataFrame)))).
Proof.
  apply (get_player_ids_same_names roster ["Jaren Jackson Jr."; "Ja Morant"]
           ["Ja Morant"; "Jaren Jackson Jr."; "Ja Morant"]).
  intros name. simpl. tauto.
Defined.

Lemma season_files_in_order_at_session :
  exists (t : list event) (team_games roster_df : DataFrame) (names : list string)
         (logs : list DataFrame),
    trace (snd (process_season replay frames no_clock 1610612763
                  ["Ja Morant"; "Desmond Bane"; "Jaren Jackson Jr."] "2023-24"
                  (start season_session)))
    = t
    /\ map fst (dict_of (map (roster_item roster_df)
                           (matching_rows roster_df
                              ["Ja Morant"; "Desmond Bane"; "Jaren Jackson Jr."])))
       = map VStr names
    /\ incl names ["Ja Morant"; "Desmond Bane"; "Jaren Jackson Jr."]
    /\ (length names <= 3)%nat
    /\ length logs = length names
    /\ files t
       = ("data/raw/2023-24/team/games_2023-24.csv", team_games)
         :: ("data/raw/2023-24/team/roster_2023-24.csv", roster_df)
         :: combine (map (player_file "data/raw/2023-24/players" "2023-24") names) logs.
Proof.
  edestruct (season_files_in_order replay frames no_clock 1610612763
               ["Ja Morant"; "Desmond Bane"; "Jaren Jackson Jr."] "2023-24"
               (start season_session))
    as [t [team_games [roster_df [names [logs H]]]]].
  - vm_compute. reflexivity.
  - exists t, team_games, roster_df, names, logs. exact H.
Defined.

Lemma run_stops_at_first_failure_at_session :
  run replay frames no_clock 1610612763 ["2023-24"; "2024-25"]
      ["Ja Morant"; "Desmond Bane"; "Jaren Jackson Jr."]
      (start [Raise bad_payload; Ok [roster]])
  = (Raise bad_payload,
     mkState [Ok [roster]]
       [EMakedirs "data/raw/2023-24/team";
        EMakedirs "data/raw/2023-24/players";
        EPrint (nl ++ "=== Processando temporada 2023-24 ===");
        EPrint "Coletando log de jogos para o time 1610612763 na temporada 2023-24...";
        ECall TeamGameLog [("team_id", VInt 1610612763); ("season", VStr "2023-24")]]).
Proof.
  destruct (run_stops_at_first_failure replay frames no_clock 1610612763
              ["Ja Morant"; "Desmond Bane"; "Jaren Jackson Jr."] [] ["2024-25"]
              "2023-24" (start [Raise bad_payload; Ok [roster]])
              (start [Raise bad_payload; Ok [roster]])
              (mkState [Ok [roster]]
                 [EMakedirs "data/raw/2023-24/team";
                  EMakedirs "data/raw/2023-24/players";
                  EPrint (nl ++ "=== Processando temporada 2023-24 ===");
                  EPrint "Coletando log de jogos para o time 1610612763 na temporada 2023-24...";
                  ECall TeamGameLog
                    [("team_id", VInt 1610612763); ("season", VStr "2023-24")]])
              bad_payload) as [Hseason _].
  - reflexivity.
  - apply Hseason. reflexivity.
Defined.

Lemma season_steps_are_paced_at_session :
  paced (trace (snd (process_season replay frames no_clock 1610612763
                       ["Ja Morant"; "Desmond Bane"; "Jaren Jackson Jr."] "2023-24"
                       (start season_session)))) = true
  /\ sleeps_of 2 (trace (snd (process_season replay frames no_clock 1610612763
                                ["Ja Morant"; "Desmond Bane"; "Jaren Jackson Jr."]
                                "2023-24" (start season_session)))) = 2%nat
  /\ sleeps_of 3 (trace (snd (process_season replay frames no_clock 1610612763
                                ["Ja Morant"; "Desmond Bane"; "Jaren Jackson Jr."]
                                "2023-24" (start season_session)))) = 3%nat.
Proof.
  destruct (season_steps_are_paced replay frames no_clock 1610612763
              ["Ja Morant"; "Desmond Bane"; "Jaren Jackson Jr."] ["2023-24"])
    as [_ [Hseason _]].
  destruct (Hseason "2023-24" (start season_session)
              (snd (process_season replay frames no_clock 1610612763
                      ["Ja Morant"; "Desmond Bane"; "Jaren Jackson Jr."] "2023-24"
                      (start season_session))))
    as [t [team_games [roster_df [player_ids [names [logs
         [Ht [Hp [Hf [Hg [Hn [Hl [H2 H3]]]]]]]]]]]]].
  - vm_compute. reflexivity.
  - cbn [start trace app] in Ht. rewrite Ht.
    split; [exact Hp|]. split; [exact H2|]. rewrite H3.
    assert (roster_df = roster) as Hroster.
    { rewrite <- Ht in Hf. vm_compute in Hf.
      injection Hf as _ Hroster _. symmetry. exact Hroster. }
    rewrite Hroster in Hg. vm_compute in Hg. injection Hg as <-. reflexivity.
Defined.
